(** * Profile actions and the auth provider of the dashboard

    A shallow embedding of [src/app/actions/profile-actions.ts] (server
    actions) and [src/components/auth/auth-provider.tsx] (client-side auth
    state), with the properties the specification states about them.

    Conventions.
    - A JavaScript string is a [string]; [String.length] stands for
      [.length].  The literals of the program are ASCII.
    - An instant ([Date.now()], [new Date()], a [created_at] column) is a
      [Z] of milliseconds; the ISO-8601 rendering of an instant is not
      modelled, the instant itself is stored.
    - The hosted backend (auth, row store, object store) is not part of the
      repository.  Its state is a record [Backend.State]; what it answers
      to one invocation of a handler is a record [Env]; every collaborator
      call, view invalidation and diagnostic log of a handler is recorded,
      in order, in a trace of [Call]s. *)

From Stdlib Require Import ZArith Ascii String List Bool Lia.
From stdpp Require Import base option list strings gmap pretty sorting.

Local Open Scope string_scope.
Local Open Scope Z_scope.

(** ** JavaScript string helpers used by the program *)

Module JS.

(** [c.toLowerCase()] on one ASCII character: ['A'..'Z'] move to
    ['a'..'z'], every other character is kept. *)
Definition lower_ascii (c : ascii) : ascii :=
  let n := nat_of_ascii c in
  if ((65 <=? n) && (n <=? 90))%nat then ascii_of_nat (n + 32) else c.

(** [s.toLowerCase()] *)
Fixpoint toLowerCase (s : string) : string :=
  match s with
  | EmptyString => EmptyString
  | String c s' => String (lower_ascii c) (toLowerCase s')
  end.

(** [s.startsWith(p)] *)
Definition startsWith (s p : string) : bool := String.prefix p s.

(** [s.includes(q)]: [q] occurs in [s] at some position. *)
Fixpoint includes (s q : string) : bool :=
  String.prefix q s
  || match s with
     | EmptyString => false
     | String _ s' => includes s' q
     end.

(** [s.split(sep)] for a one-character separator: the pieces between the
    separators, in order; never the empty array. *)
Fixpoint split (sep : ascii) (s : string) : list string :=
  match s with
  | EmptyString => [EmptyString]
  | String c s' =>
      if Ascii.eqb c sep then EmptyString :: split sep s'
      else match split sep s' with
           | [] => [String c EmptyString]
           | w :: ws => String c w :: ws
           end
  end.

(** [a.pop()], for its value: the last element, [undefined] on []. *)
Definition pop (a : list string) : option string := last a.

(** A template-literal hole [${x}] for a value that may be [undefined]. *)
Definition template (x : option string) : string :=
  match x with
  | Some s => s
  | None => "undefined"
  end.

(** Truthiness of a string-or-undefined value. *)
Definition truthy (x : option string) : bool :=
  match x with
  | Some s => negb (String.eqb s "")
  | None => false
  end.

End JS.

(** ** The hosted backend *)

Module Backend.

(** The authenticated principal of the auth service ([User]). *)
Record User := {
  user_id : string;
  user_email : string;
  user_metadata_display_name : option string;
}.

(** A row of the [profiles] table. *)
Record Profile := {
  profile_id : string;
  display_name : string;
  avatar_url : option string;
  profile_email : string;
  created_at : Z;
  updated_at : Z;
}.

(** A row of the [connected_accounts] table. *)
Record ConnectedAccount := {
  account_id : string;
  account_user_id : string;
  account_provider : string;
  account_created_at : Z;
}.

(** A [File] of a form submission. *)
Record File := {
  file_name : string;
  file_size : N;
  file_type : string;
}.

(** The object of an [update] on [profiles]: the columns it sets. *)
Record Patch := {
  patch_display_name : option string;
  patch_avatar_url : option string;
  patch_updated_at : Z;
}.

Definition apply_patch (p : Patch) (row : Profile) : Profile :=
  {| profile_id := profile_id row;
     display_name := default (display_name row) (patch_display_name p);
     avatar_url :=
       match patch_avatar_url p with
       | Some u => Some u
       | None => avatar_url row
       end;
     profile_email := profile_email row;
     created_at := created_at row;
     updated_at := patch_updated_at p |}.

(** State of the backend: objects by (bucket, key), profile rows by id,
    and the connected-account rows. *)
Record State := {
  objects : gmap (string * string) File;
  profiles : gmap string Profile;
  connected_accounts : list ConnectedAccount;
}.

(** What the surroundings answer during one invocation of a handler. *)
Record Env := {
  (** [supabase.auth.getUser()]: [data.user] *)
  current_user : option User;
  (** [Date.now()] *)
  date_now : Z;
  (** [new Date()] *)
  new_date : Z;
  (** [upload]: the message of [error], when it fails *)
  upload_error : option string;
  (** [getPublicUrl]: [data.publicUrl] for a bucket and a key *)
  public_url : string → string → option string;
  (** [update] on [profiles]: the message of [error], when it fails *)
  update_error : option string;
  (** [select] on [connected_accounts]: the message of [error] *)
  select_error : option string;
}.

(** What a handler does to its surroundings, in order. *)
Inductive Call :=
| AuthGetUser
| StorageUpload (bucket key : string) (f : File)
| StorageGetPublicUrl (bucket key : string)
| StorageRemove (bucket : string) (keys : list string)
| RowUpdate (table : string) (p : Patch) (id : string)
| RowSelect (table user_id order_by : string)
| RevalidatePath (path : string)
| ConsoleError (label : string).

(** Calls that reach a remote collaborator (auth, rows, objects). *)
Definition is_remote (c : Call) : bool :=
  match c with
  | RevalidatePath _ | ConsoleError _ => false
  | _ => true
  end.

(** Calls that change something: a write to the backend or a view
    invalidation. *)
Definition is_effect (c : Call) : bool :=
  match c with
  | StorageUpload _ _ _ | StorageRemove _ _ | RowUpdate _ _ _
  | RevalidatePath _ => true
  | _ => false
  end.

Record World := {
  backend : State;
  trace : list Call;
}.

(** Handlers run in a state monad over [World]. *)
Definition Action (A : Type) : Type := World → A * World.

Definition ret {A} (x : A) : Action A := λ w, (x, w).

Definition bind {A B} (m : Action A) (k : A → Action B) : Action B :=
  λ w, let '(a, w') := m w in k a w'.

Definition emit (c : Call) : Action unit :=
  λ w, (tt, {| backend := backend w; trace := trace w ++ [c] |}).

Definition modify (f : State → State) : Action unit :=
  λ w, (tt, {| backend := f (backend w); trace := trace w |}).

Definition read {A} (f : State → A) : Action A :=
  λ w, (f (backend w), w).

End Backend.

Import Backend.

(** [Action] with stdpp's monad notations: [x ← m; k] and [m;; k]. *)
Global Instance action_ret : MRet Action := @ret.
Global Instance action_bind : MBind Action := λ A B k m, bind m k.

(** The collaborators are the SDK of the hosted backend, outside the
    repository.  A call that the handlers test for an error takes its
    outcome from [Env]; a call that succeeds acts on [State] as section 6
    of the specification words its contract: [upload] stores the object
    under the bucket and key, [remove] deletes the keys (the handler does
    not read what it returns), [update] patches the row with the id,
    [select] with [order] gives the rows of the identity by ascending
    creation time. *)

Module Collaborators.

(** [supabase.auth.getUser()] *)
Definition auth_getUser (env : Env) : Action (option User) :=
  emit AuthGetUser ;; ret (current_user env).

(** Modelled from the spec: [upload(bucket, key, bytes)] when it
    succeeds. *)
Definition put_object (bucket key : string) (f : File) (s : State) : State :=
  {| objects := <[(bucket, key) := f]> (objects s);
     profiles := profiles s;
     connected_accounts := connected_accounts s |}.

(** Modelled from the spec: [remove(bucket, keys)]. *)
Definition delete_objects (bucket : string) (keys : list string) (s : State)
  : State :=
  {| objects := foldr (λ k m, delete (bucket, k) m) (objects s) keys;
     profiles := profiles s;
     connected_accounts := connected_accounts s |}.

(** Modelled from the spec: [update(table, patch, filter)] on [profiles]
    with the filter [id = ...], when it succeeds. *)
Definition patch_profile (p : Patch) (id : string) (s : State) : State :=
  {| objects := objects s;
     profiles := alter (apply_patch p) id (profiles s);
     connected_accounts := connected_accounts s |}.

(** [supabase.storage.from(bucket).upload(key, file)]: [error] *)
Definition storage_upload (env : Env) (bucket key : string) (f : File)
  : Action (option string) :=
  emit (StorageUpload bucket key f) ;;
  match upload_error env with
  | Some msg => ret (Some msg)
  | None => modify (put_object bucket key f) ;; ret None
  end.

(** [supabase.storage.from(bucket).getPublicUrl(key)]: [data.publicUrl] *)
Definition storage_getPublicUrl (env : Env) (bucket key : string)
  : Action (option string) :=
  emit (StorageGetPublicUrl bucket key) ;; ret (public_url env bucket key).

(** [supabase.storage.from(bucket).remove(keys)] *)
Definition storage_remove (bucket : string) (keys : list string)
  : Action unit :=
  emit (StorageRemove bucket keys) ;; modify (delete_objects bucket keys).

(** [supabase.from("profiles").update(patch).eq("id", id)]: [error] *)
Definition profiles_update (env : Env) (p : Patch) (id : string)
  : Action (option string) :=
  emit (RowUpdate "profiles" p id) ;;
  match update_error env with
  | Some msg => ret (Some msg)
  | None => modify (patch_profile p id) ;; ret None
  end.

Definition created_le (a b : ConnectedAccount) : Prop :=
  account_created_at a ≤ account_created_at b.

Global Instance created_le_dec a b : Decision (created_le a b).
Proof. unfold created_le. apply _. Defined.

(** Modelled from the spec: [selectMany(table, filter, orderBy)] on
    [connected_accounts]: the rows of one identity, ordered by
    [created_at] ascending. *)
Definition accounts_of (uid : string) (rows : list ConnectedAccount)
  : list ConnectedAccount :=
  merge_sort created_le
    (filter (λ r, account_user_id r = uid) rows).

(** [supabase.from("connected_accounts").select("*").eq("user_id", id)
      .order("created_at", { ascending: true })]: [data] and [error] *)
Definition connected_accounts_select (env : Env) (uid : string)
  : Action (option (list ConnectedAccount) * option string) :=
  emit (RowSelect "connected_accounts" uid "created_at") ;;
  match select_error env with
  | Some msg => ret (None, Some msg)
  | None =>
      rows ← read connected_accounts;
      ret (Some (accounts_of uid rows), None)
  end.

(** [revalidatePath(path)] *)
Definition revalidatePath (path : string) : Action unit :=
  emit (RevalidatePath path).

(** [console.error(label, ...)] *)
Definition console_error (label : string) : Action unit :=
  emit (ConsoleError label).

End Collaborators.

Import Collaborators.


(** ** The server actions of [profile-actions.ts] *)

Module ProfileActions.

(** What [updateProfile] and [uploadAvatar] return: [{ error }], or
    [{ message }] with [avatarUrl] for an upload. *)
Inductive ActionResult :=
| Failure (error : string)
| Success (message : string) (avatarUrl : option string).

(** What [getConnectedAccounts] returns: [{ error?, accounts }]. *)
Record AccountsResult := {
  accounts_error : option string;
  accounts : list ConnectedAccount;
}.

(** The guard of line 20 on [formData.get("displayName")]:
    [!displayName || displayName.length === 0 || displayName.length > 32]. *)
Definition displayName_rejected (displayName : option string) : bool :=
  negb (JS.truthy displayName)
  || match displayName with
     | Some s => (String.length s =? 0)%nat || (32 <? String.length s)%nat
     | None => true
     end.

Definition updateProfile (env : Env) (displayName : option string)
  : Action ActionResult :=
  user ← auth_getUser env;
  match user with
  | None => ret (Failure "User not authenticated")
  | Some user =>
      if displayName_rejected displayName then
        ret (Failure "Display name must be between 1 and 32 characters")
      else
        error ← profiles_update env
                  {| patch_display_name := displayName;
                     patch_avatar_url := None;
                     patch_updated_at := new_date env |}
                  (user_id user);
        match error with
        | Some message =>
            console_error "Error updating profile:";;
            ret (Failure ("Failed to update profile. " +:+ message))
        | None =>
            revalidatePath "/settings";;
            revalidatePath "/dashboard";;
            ret (Success "Profile updated successfully" None)
        end
  end.

(** Lines 63-65: the path of the object of an upload. *)
Definition fileExtension (f : File) : option string :=
  JS.pop (JS.split "."%char (file_name f)).

Definition fileName (env : Env) (user : User) (f : File) : string :=
  user_id user +:+ "-" +:+ pretty (date_now env) +:+ "."
    +:+ JS.template (fileExtension f).

Definition filePath (env : Env) (user : User) (f : File) : string :=
  "avatars/" +:+ fileName env user f.

Definition uploadAvatar (env : Env) (avatar : option File)
  : Action ActionResult :=
  user ← auth_getUser env;
  match user with
  | None => ret (Failure "User not authenticated")
  | Some user =>
      match avatar with
      | None => ret (Failure "No file selected")
      | Some file =>
          if (file_size file =? 0)%N then ret (Failure "No file selected")
          else if (2 * 1024 * 1024 <? file_size file)%N then
            ret (Failure "File size must be less than 2MB")
          else if negb (JS.startsWith (file_type file) "image/") then
            ret (Failure "File must be an image")
          else
            let path := filePath env user file in
            uploadError ← storage_upload env "avatars" path file;
            match uploadError with
            | Some message =>
                console_error "Error uploading avatar:";;
                ret (Failure ("Failed to upload avatar. " +:+ message))
            | None =>
                publicUrl ← storage_getPublicUrl env "avatars" path;
                if negb (JS.truthy publicUrl) then
                  console_error "Error getting public URL for avatar";;
                  ret (Failure "Failed to get avatar URL.")
                else
                  dbError ← profiles_update env
                              {| patch_display_name := None;
                                 patch_avatar_url := publicUrl;
                                 patch_updated_at := new_date env |}
                              (user_id user);
                  match dbError with
                  | Some message =>
                      console_error "Error updating avatar URL in profile:";;
                      storage_remove "avatars" [path];;
                      ret (Failure
                             ("Failed to update profile with new avatar. "
                                +:+ message))
                  | None =>
                      revalidatePath "/settings";;
                      revalidatePath "/dashboard";;
                      ret (Success "Avatar updated successfully" publicUrl)
                  end
            end
      end
  end.

Definition getConnectedAccounts (env : Env) : Action AccountsResult :=
  user ← auth_getUser env;
  match user with
  | None =>
      ret {| accounts_error := Some "User not authenticated"; accounts := [] |}
  | Some user =>
      '(data, error) ← connected_accounts_select env (user_id user);
      match error with
      | Some message =>
          console_error "Error fetching connected accounts:";;
          ret {| accounts_error :=
                   Some ("Failed to fetch connected accounts. " +:+ message);
                 accounts := [] |}
      | None =>
          ret {| accounts_error := None; accounts := default [] data |}
      end
  end.

(** What [updatePersonalization] returns: [{ error }], or
    [{ success: true, message }]. *)
Inductive PersonalizationResult :=
| PersonalizationError (error : string)
| PersonalizationSaved (message : string).

(** [updatePersonalization({ systemPrompt, notes })]; the simulated delay
    does nothing else, and nothing is saved. *)
Definition updatePersonalization (systemPrompt notes : string)
  : Action PersonalizationResult :=
  if (1000 <? String.length systemPrompt)%nat then
    ret (PersonalizationError "System prompt must be 1000 characters or less")
  else if (2000 <? String.length notes)%nat then
    ret (PersonalizationError "Notes must be 2000 characters or less")
  else
    revalidatePath "/settings";;
    ret (PersonalizationSaved
           "Personalization settings updated successfully").

(** An activity record of [searchActivity]. *)
Record Activity := {
  activity_id : string;
  title : string;
  description : string;
  activity_type : string;
  activity_created_at : Z;
}.

(** [mockResults], built at the instant [now] of the call. *)
Definition mockResults (now : Z) : list Activity :=
  [ {| activity_id := "1";
       title := "QueueCX Integration Setup";
       description :=
         "Configured QueueCX integration with production environment";
       activity_type := "session";
       activity_created_at := now |};
    {| activity_id := "2";
       title := "Environment Aware Configuration";
       description :=
         "Updated environment awareness settings for better monitoring";
       activity_type := "document";
       activity_created_at := now - 86400000 |};
    {| activity_id := "3";
       title := "Fluidity Index Analysis";
       description :=
         "Analyzed system fluidity metrics and performance indicators";
       activity_type := "meeting";
       activity_created_at := now - 172800000 |} ].

(** The predicate of the [filter] of lines 174-178. *)
Definition matches (query : string) (item : Activity) : bool :=
  JS.includes (JS.toLowerCase (title item)) (JS.toLowerCase query)
  || JS.includes (JS.toLowerCase (description item)) (JS.toLowerCase query).

(** [searchActivity(query)], for its [results]; the simulated delay does
    nothing else. *)
Definition searchActivity (now : Z) (query : string) : list Activity :=
  if negb (JS.truthy (Some query)) then mockResults now
  else List.filter (matches query) (mockResults now).

End ProfileActions.

Import ProfileActions.

(** Invoking a handler on a backend state, with an empty trace. *)
Definition invoke {A} (m : Action A) (s : State) : A * World :=
  m {| backend := s; trace := [] |}.


(** ** The auth provider of [auth-provider.tsx] *)

Module AuthProvider.

(** [User & { profile?: Profile }] *)
Record Identity := {
  auth_user : User;
  profile : option Profile;
}.

(** The [Session] of the auth service, for the part the provider reads. *)
Record Session := {
  session_user : User;
  access_token : string;
}.

(** [isSupabaseConfigured()] and whether [getSupabaseClient()] gave a
    client. *)
Record Config := {
  configured : bool;
  supabase : bool;
}.

(** The test [!configured || !supabase] of the effect and of the three
    operations: the demo mode. *)
Definition demo (c : Config) : bool := negb (configured c) || negb (supabase c).

(** The answer of [.single()] on [profiles]: a row, or an error. *)
Inductive SingleResponse :=
| Row (data : Profile)
| RowError (message : string).

(** [fetchUserProfile]: [null] without a client or on an error. *)
Definition fetchUserProfile (c : Config) (r : SingleResponse)
  : option Profile :=
  if negb (supabase c) then None
  else match r with
       | RowError _ => None
       | Row data => Some data
       end.

(** Which of the two registrations of the effect a resolution belongs to:
    [getSession().then] or [onAuthStateChange]. *)
Inductive Origin := Initial | Change.

(** How the mirrored identity was last written; a history variable of the
    model, not a value of the program. *)
Inductive Source :=
| Unset
| Fetched (succeeded : bool)
| Synthesized.

(** The three pieces of React state, and the bookkeeping of the runtime:
    whether the effect has run, whether [getSession] is still to resolve,
    and the profile fetches in flight. *)
Record Mirror := {
  user : option Identity;
  session : option Session;
  loading : bool;
  mounted : bool;
  awaiting_initial : bool;
  in_flight : list (Origin * User);
  source : Source;
}.

Global Instance User_eq_dec : EqDecision User.
Proof. solve_decision. Defined.

Global Instance Origin_eq_dec : EqDecision Origin.
Proof. solve_decision. Defined.

(** What happens to the provider, one event at a time. *)
Inductive Event :=
| Mount (now : Z)
| SessionResolved (o : Origin) (s : option Session)
| ProfileFetched (o : Origin) (u : User) (r : SingleResponse)
| SignIn (email password : string)
| SignUp (email password : string)
| SignOut.

(** [useState(null)], [useState(null)], [useState(true)]. *)
Definition initial : Mirror :=
  {| user := None; session := None; loading := true;
     mounted := false; awaiting_initial := false; in_flight := [];
     source := Unset |}.

Definition setUser (u : option Identity) (src : Source) (m : Mirror) : Mirror :=
  {| user := u; session := session m; loading := loading m;
     mounted := mounted m; awaiting_initial := awaiting_initial m;
     in_flight := in_flight m; source := src |}.

Definition setSession (s : option Session) (m : Mirror) : Mirror :=
  {| user := user m; session := s; loading := loading m;
     mounted := mounted m; awaiting_initial := awaiting_initial m;
     in_flight := in_flight m; source := source m |}.

Definition setLoading (b : bool) (m : Mirror) : Mirror :=
  {| user := user m; session := session m; loading := b;
     mounted := mounted m; awaiting_initial := awaiting_initial m;
     in_flight := in_flight m; source := source m |}.

Definition set_runtime (mt aw : bool) (fl : list (Origin * User)) (m : Mirror)
  : Mirror :=
  {| user := user m; session := session m; loading := loading m;
     mounted := mt; awaiting_initial := aw; in_flight := fl;
     source := source m |}.

(** The identity of lines 46-60. *)
Definition demo_identity (now : Z) : Identity :=
  {| auth_user :=
       {| user_id := "demo-user"; user_email := "demo@queuecx.com";
          user_metadata_display_name := Some "Demo User" |};
     profile :=
       Some {| profile_id := "demo-user"; display_name := "Demo User";
               avatar_url := None; profile_email := "demo@queuecx.com";
               created_at := now; updated_at := now |} |}.

(** The identity of lines 95-101 and 115-121. *)
Definition local_identity (email : string) : Identity :=
  {| auth_user :=
       {| user_id := "demo-user"; user_email := email;
          user_metadata_display_name := head (JS.split "@"%char email) |};
     profile := None |}.

Fixpoint remove_first (x : Origin * User) (l : list (Origin * User))
  : list (Origin * User) :=
  match l with
  | [] => []
  | y :: l' => if decide (x = y) then l' else y :: remove_first x l'
  end.

(** [updateUserProfile(null)]: lines 70 and 72. *)
Definition updateUserProfile_null (m : Mirror) : Mirror :=
  setLoading false (setUser None Unset m).

(** Whether the answer of the row store is a row. *)
Definition succeeded (r : SingleResponse) : bool :=
  match r with
  | Row _ => true
  | RowError _ => false
  end.

(** [updateUserProfile(authUser)] once [fetchUserProfile] has returned
    [p]: lines 68 and 72; [profile ?? undefined] keeps a row and turns
    [null] into an absent field. *)
Definition updateUserProfile_user (u : User) (p : option Profile) (src : Source)
    (m : Mirror) : Mirror :=
  setLoading false
    (setUser (Some {| auth_user := u; profile := p |}) src m).

(** The callbacks of lines 76-79 and 84-87 up to the [await] of the
    fetch: the session is stored, and either the identity is cleared or a
    fetch for the user of the session starts. *)
Definition on_session (o : Origin) (s : option Session) (m : Mirror) : Mirror :=
  let m := setSession s m in
  match s with
  | None => updateUserProfile_null m
  | Some s =>
      set_runtime (mounted m) (awaiting_initial m)
        (in_flight m ++ [(o, session_user s)]) m
  end.

(** [signIn(email, password)] and [signUp(email, password)], for what
    they do to the state: in demo mode they make up an identity from the
    address; otherwise they call the auth service and return its error,
    and the state moves only when the service reports a session change. *)
Definition signIn (c : Config) (email password : string) (m : Mirror)
  : Mirror :=
  if demo c then setUser (Some (local_identity email)) Synthesized m else m.

Definition signUp (c : Config) (email password : string) (m : Mirror)
  : Mirror :=
  if demo c then setUser (Some (local_identity email)) Synthesized m else m.

(** [signOut()], likewise. *)
Definition signOut (c : Config) (m : Mirror) : Mirror :=
  if demo c then setSession None (setUser None Unset m) else m.

(** One event; [None] when the event cannot happen in this state: the
    effect runs once; [getSession] resolves once, after the effect; the
    listener exists after the effect, with a backend; a fetch returns only
    if it is in flight.  The teardown of the effect is not modelled. *)
Definition step (c : Config) (m : Mirror) (e : Event) : option Mirror :=
  match e with
  | Mount now =>
      if mounted m then None
      else if demo c then
        Some (set_runtime true false (in_flight m)
                (setLoading false
                   (setUser (Some (demo_identity now)) Synthesized m)))
      else Some (set_runtime true true (in_flight m) m)
  | SessionResolved Initial s =>
      if negb (demo c) && mounted m && awaiting_initial m then
        Some (on_session Initial s
                (set_runtime (mounted m) false (in_flight m) m))
      else None
  | SessionResolved Change s =>
      if negb (demo c) && mounted m then Some (on_session Change s m)
      else None
  | ProfileFetched o u r =>
      if bool_decide ((o, u) ∈ in_flight m) then
        Some (updateUserProfile_user u (fetchUserProfile c r)
                (Fetched (succeeded r))
                (set_runtime (mounted m) (awaiting_initial m)
                   (remove_first (o, u) (in_flight m)) m))
      else None
  | SignIn email password => Some (signIn c email password m)
  | SignUp email password => Some (signUp c email password m)
  | SignOut => Some (signOut c m)
  end.

(** A run of events from a state. *)
Fixpoint exec (c : Config) (m : Mirror) (evs : list Event) : option Mirror :=
  match evs with
  | [] => Some m
  | e :: evs' =>
      match step c m e with
      | Some m' => exec c m' evs'
      | None => None
      end
  end.

(** The values of [loading] along a run, the first state included. *)
Fixpoint loading_history (c : Config) (m : Mirror) (evs : list Event)
  : list bool :=
  loading m ::
  match evs with
  | [] => []
  | e :: evs' =>
      match step c m e with
      | Some m' => loading_history c m' evs'
      | None => []
      end
  end.

(** How often a list of flags goes from [a] to [b] between neighbours. *)
Fixpoint flips (a b : bool) (l : list bool) : nat :=
  match l with
  | x :: (y :: _) as l' =>
      ((if Bool.eqb x a && Bool.eqb y b then 1 else 0) + flips a b l')%nat
  | _ => 0%nat
  end.

(** The resolutions that end in [updateUserProfile] returning: a session
    without a user, or the return of a profile fetch. *)
Definition completes (o : Origin) (e : Event) : bool :=
  match e with
  | SessionResolved o' None => bool_decide (o' = o)
  | ProfileFetched o' _ _ => bool_decide (o' = o)
  | _ => false
  end.

End AuthProvider.


(** ** Statements of the specification, in its own words *)

Module Stated.

(** A display name violates the presence and length constraint: absent,
    of length 0, or longer than 32. *)
Definition violates (displayName : option string) : Prop :=
  match displayName with
  | None => True
  | Some s => String.length s = 0%nat ∨ (32 < String.length s)%nat
  end.

(** [s] contains [q] as a substring, letter case apart. *)
Definition icontains (s q : string) : Prop :=
  ∃ pre mid suf,
    s = pre +:+ mid +:+ suf ∧ JS.toLowerCase mid = JS.toLowerCase q.

(** A file that passes the three checks of [uploadAvatar]. *)
Definition acceptable (f : File) : Prop :=
  file_size f ≠ 0%N ∧ (file_size f ≤ 2 * 1024 * 1024)%N
  ∧ ∃ rest, file_type f = "image/" +:+ rest.

(** "no remote call of any kind is made" *)
Definition no_remote_call (w : World) : Prop :=
  List.filter is_remote (trace w) = [].

(** The storage key as the specification words it:
    [{identityId}-{currentTimeMillis}.{originalExtension}]. *)
Definition stated_key (env : Env) (u : User) (ext : string) : string :=
  user_id u +:+ "-" +:+ pretty (date_now env) +:+ "." +:+ ext.

(** The keys the storage calls of a trace name. *)
Definition storage_keys (t : list Call) : list (string * string) :=
  flat_map (λ c, match c with
                 | StorageUpload b k _ | StorageGetPublicUrl b k => [(b, k)]
                 | StorageRemove b ks => (λ k, (b, k)) <$> ks
                 | _ => []
                 end) t.

(** The rejection of a display name as the specification words it: a
    [ValidationError] result, and no remote call made. *)
Definition rejected_without_remote_call
    (env : Env) (displayName : option string) (s : State) : Prop :=
  violates displayName →
  (invoke (updateProfile env displayName) s).1
  = Failure "Display name must be between 1 and 32 characters"
  ∧ no_remote_call (invoke (updateProfile env displayName) s).2.

(** The mirrored identity as the specification words it: null, or an
    identity whose profile is present exactly when the profile fetch
    succeeded. *)
Definition mirrored_as_stated (m : AuthProvider.Mirror) : Prop :=
  match AuthProvider.user m with
  | None => True
  | Some i =>
      is_Some (AuthProvider.profile i)
      ↔ AuthProvider.source m = AuthProvider.Fetched true
  end.

(** The mirrored identity as the provider keeps it.  Null stands for no
    user only.  With a backend, an identity comes from a profile fetch and
    carries a profile exactly when the fetch gave a row.  In demo mode no
    fetch is made: the identity is the demo identity of the mount, with
    its profile, or the one made up by a sign-in or sign-up, without. *)
Definition mirrored (c : AuthProvider.Config) (m : AuthProvider.Mirror)
  : Prop :=
  match AuthProvider.user m with
  | None => AuthProvider.source m = AuthProvider.Unset
  | Some i =>
      if AuthProvider.demo c then
        AuthProvider.source m = AuthProvider.Synthesized
        ∧ ((∃ now, i = AuthProvider.demo_identity now)
           ∨ (∃ email, i = AuthProvider.local_identity email))
      else
        ∃ ok, AuthProvider.source m = AuthProvider.Fetched ok
              ∧ (is_Some (AuthProvider.profile i) ↔ ok = true)
  end.

(** [mirrored], with what its proof carries along: in demo mode no fetch
    is ever in flight. *)
Definition mirrored_inv (c : AuthProvider.Config) (m : AuthProvider.Mirror)
  : Prop :=
  mirrored c m
  ∧ (AuthProvider.demo c = true → AuthProvider.in_flight m = []).

(** Some resolution of origin [o] has completed among the events. *)
Definition completed (o : AuthProvider.Origin)
    (evs : list AuthProvider.Event) : bool :=
  existsb (AuthProvider.completes o) evs.

(** The timing of [loading] as the specification words it: [true] until
    the initial session resolution has completed, [false] from then on. *)
Definition falls_at_initial (evs : list AuthProvider.Event)
    (m : AuthProvider.Mirror) : Prop :=
  AuthProvider.loading m = negb (completed AuthProvider.Initial evs).

(** The storage key of an upload as the specification words it: every
    storage call of the handler names the key [stated_key]. *)
Definition keyed_as_stated (env : Env) (u : User) (f : File) (s : State)
  : Prop :=
  ∃ ext, fileExtension f = Some ext
    ∧ ∀ b k, (b, k) ∈ storage_keys
                        (trace (invoke (uploadAvatar env (Some f)) s).2) →
             k = stated_key env u ext.

(** [s] holds no separator [sep]. *)
Definition sep_free (sep : ascii) (s : string) : Prop :=
  ∀ pre suf, s ≠ pre +:+ String sep suf.

End Stated.

(** ** Sample inputs *)

Module Sample.

Definition empty_state : State :=
  {| objects := ∅; profiles := ∅; connected_accounts := [] |}.

Definition alice : User :=
  {| user_id := "u1"; user_email := "alice@example.com";
     user_metadata_display_name := Some "Alice" |}.

Definition alice_row : Profile :=
  {| profile_id := "u1"; display_name := "Alice"; avatar_url := None;
     profile_email := "alice@example.com"; created_at := 1000;
     updated_at := 1000 |}.

Definition state_with_alice : State :=
  {| objects := ∅; profiles := {[ "u1" := alice_row ]};
     connected_accounts :=
       [ {| account_id := "c2"; account_user_id := "u1";
            account_provider := "github"; account_created_at := 30 |};
         {| account_id := "c9"; account_user_id := "u7";
            account_provider := "google"; account_created_at := 10 |};
         {| account_id := "c1"; account_user_id := "u1";
            account_provider := "google"; account_created_at := 20 |} ] |}.

(** Everything answers; nobody is signed in. *)
Definition anonymous : Env :=
  {| current_user := None; date_now := 1700000000000;
     new_date := 1700000000001; upload_error := None;
     public_url := λ b k, Some ("https://cdn.example/" +:+ b +:+ "/" +:+ k);
     update_error := None; select_error := None |}.

(** Everything answers; alice is signed in. *)
Definition signed_in : Env :=
  {| current_user := Some alice; date_now := 1700000000000;
     new_date := 1700000000001; upload_error := None;
     public_url := λ b k, Some ("https://cdn.example/" +:+ b +:+ "/" +:+ k);
     update_error := None; select_error := None |}.

(** As [signed_in], but the update of the profile row fails. *)
Definition update_fails : Env :=
  {| current_user := Some alice; date_now := 1700000000000;
     new_date := 1700000000001; upload_error := None;
     public_url := λ b k, Some ("https://cdn.example/" +:+ b +:+ "/" +:+ k);
     update_error := Some "row level security"; select_error := None |}.

(** As [signed_in], but no public URL comes back. *)
Definition no_url : Env :=
  {| current_user := Some alice; date_now := 1700000000000;
     new_date := 1700000000001; upload_error := None;
     public_url := λ _ _, None;
     update_error := None; select_error := None |}.

Definition portrait : File :=
  {| file_name := "me.png"; file_size := 2 * 1024 * 1024;
     file_type := "image/png" |}.

Definition name32 : string := "abcdefghijklmnopqrstuvwxyz012345".
Definition name33 : string := "abcdefghijklmnopqrstuvwxyz0123456".

Definition live : AuthProvider.Config :=
  {| AuthProvider.configured := true; AuthProvider.supabase := true |}.

Definition offline : AuthProvider.Config :=
  {| AuthProvider.configured := false; AuthProvider.supabase := false |}.

Definition alice_session : AuthProvider.Session :=
  {| AuthProvider.session_user := alice;
     AuthProvider.access_token := "token" |}.

(** Mount, the initial session resolves with alice, her profile fetch
    fails. *)
Definition failed_fetch_run : list AuthProvider.Event :=
  [AuthProvider.Mount 0;
   AuthProvider.SessionResolved AuthProvider.Initial (Some alice_session);
   AuthProvider.ProfileFetched AuthProvider.Initial alice
     (AuthProvider.RowError "timeout")].

(** Mount, the initial session resolves with alice, her profile arrives,
    then the auth service reports a sign-out. *)
Definition sign_out_run : list AuthProvider.Event :=
  [AuthProvider.Mount 0;
   AuthProvider.SessionResolved AuthProvider.Initial (Some alice_session);
   AuthProvider.ProfileFetched AuthProvider.Initial alice
     (AuthProvider.Row alice_row);
   AuthProvider.SessionResolved AuthProvider.Change None].

(** Mount, then the auth service reports a signed-out state while
    [getSession] is still to resolve. *)
Definition early_change_run : list AuthProvider.Event :=
  [AuthProvider.Mount 0;
   AuthProvider.SessionResolved AuthProvider.Change None].

End Sample.

(** ** Notions used by the further properties *)

Module Notions.

Import AuthProvider.

(** The calls a component makes on the context, as opposed to what the
    auth service and the row store report. *)
Definition is_call (e : Event) : bool :=
  match e with
  | SignIn _ _ | SignUp _ _ | SignOut => true
  | _ => false
  end.

(** The session of the last resolution among the events, [None] when
    there is none. *)
Definition last_session (evs : list Event) : option Session :=
  foldl (λ acc e, match e with
                  | SessionResolved _ s => s
                  | _ => acc
                  end) None evs.

(** The sessions with a user that the events deliver. *)
Definition delivered (evs : list Event) : list Session :=
  flat_map (λ e, match e with
                 | SessionResolved _ (Some s) => [s]
                 | _ => []
                 end) evs.

(** The identity that the calls of a run leave in demo mode, after a
    mount at [now]: that of the last sign-in or sign-up, none after a
    sign-out, the demo identity when there is no call. *)
Definition demo_user (now : Z) (evs : list Event) : option Identity :=
  foldl (λ acc e, match e with
                  | SignIn email _ | SignUp email _ =>
                      Some (local_identity email)
                  | SignOut => None
                  | _ => acc
                  end) (Some (demo_identity now)) evs.

(** The mirrored identity is the user of the mirrored session. *)
Definition agrees (m : Mirror) : Prop :=
  match session m with
  | None => user m = None
  | Some s => ∃ p, user m = Some {| auth_user := session_user s;
                                    profile := p |}
  end.

(** A run in which every session resolution arrives when no profile
    fetch is in flight: the resolutions are handled one at a time. *)
Fixpoint serial (c : Config) (m : Mirror) (evs : list Event) : bool :=
  match evs with
  | [] => true
  | e :: evs' =>
      match e with
      | SessionResolved _ _ => bool_decide (in_flight m = [])
      | _ => true
      end
      && match step c m e with
         | Some m' => serial c m' evs'
         | None => true
         end
  end.

(** What a run of the two profile handlers leaves in the caller's row. *)
Definition renamed (name : string) (now : Z) (row : Profile) : Profile :=
  {| profile_id := profile_id row; display_name := name;
     avatar_url := avatar_url row; profile_email := profile_email row;
     created_at := created_at row; updated_at := now |}.

Definition repictured (url : string) (now : Z) (row : Profile) : Profile :=
  {| profile_id := profile_id row; display_name := display_name row;
     avatar_url := Some url; profile_email := profile_email row;
     created_at := created_at row; updated_at := now |}.

Definition bob : User :=
  {| user_id := "u2"; user_email := "bob@example.com";
     user_metadata_display_name := None |}.

Definition bob_session : Session :=
  {| session_user := bob; access_token := "token-2" |}.

(** A run in which a second session arrives while the profile fetch of
    the first is in flight, and the first fetch returns last. *)
Definition overtaking_run : list Event :=
  [Mount 0;
   SessionResolved Initial (Some Sample.alice_session);
   SessionResolved Change (Some bob_session);
   ProfileFetched Change bob (RowError "timeout");
   ProfileFetched Initial Sample.alice (Row Sample.alice_row)].

(** The paths a trace invalidates, in order. *)
Definition invalidated (t : list Call) : list string :=
  flat_map (λ c, match c with
                 | RevalidatePath path => [path]
                 | _ => []
                 end) t.

(** A string of [n] letters. *)
Fixpoint letters (n : nat) : string :=
  match n with
  | O => ""
  | S n' => String "a" (letters n')
  end.

(** As [Sample.signed_in], but the upload fails. *)
Definition upload_fails : Env :=
  {| current_user := Some Sample.alice; date_now := 1700000000000;
     new_date := 1700000000001; upload_error := Some "bucket not found";
     public_url := λ b k, Some ("https://cdn.example/" +:+ b +:+ "/" +:+ k);
     update_error := None; select_error := None |}.

(** As [Sample.signed_in], one minute later. *)
Definition signed_in_later : Env :=
  {| current_user := Some Sample.alice; date_now := 1700000060000;
     new_date := 1700000060001; upload_error := None;
     public_url := λ b k, Some ("https://cdn.example/" +:+ b +:+ "/" +:+ k);
     update_error := None; select_error := None |}.

End Notions.

(** * Properties *)

(** ** Strings *)

Module JSFacts.

Import JS.

Lemma app_nil_l (b : string) : "" +:+ b = b.
Proof. reflexivity. Qed.

Lemma app_cons (c : ascii) (a b : string) :
  String c a +:+ b = String c (a +:+ b).
Proof. reflexivity. Qed.

(** [+:+] does not unfold under [simpl]; its two equations do the work. *)
Ltac push_app := rewrite ?app_cons, ?app_nil_l in *.

Lemma app_assoc (a b c : string) : (a +:+ b) +:+ c = a +:+ b +:+ c.
Proof. induction a as [|x a IH]; push_app; [done | by f_equal]. Qed.

Lemma app_nil_r (a : string) : a +:+ "" = a.
Proof. induction a as [|x a IH]; push_app; [done | by f_equal]. Qed.

Lemma prefix_app (p s : string) :
  String.prefix p s = true ↔ ∃ rest, s = p +:+ rest.
Proof.
  revert s. induction p as [|a p IH]; intros s; simpl.
  - destruct s; split; eauto.
  - destruct s as [|b s]; simpl.
    + split; [done | intros [r Hr]; push_app; discriminate].
    + destruct (Ascii.ascii_dec a b) as [->|Hne].
      * rewrite IH. split; intros [r Hr]; exists r; push_app;
          [by rewrite Hr | by injection Hr].
      * split; [done | intros [r Hr]; push_app; injection Hr; congruence].
Qed.

Lemma includes_spec (s q : string) :
  includes s q = true ↔ ∃ pre suf, s = pre +:+ q +:+ suf.
Proof.
  induction s as [|c s IH].
  - change (includes "" q) with (String.prefix q "" || false).
    rewrite orb_false_r, prefix_app. split.
    + intros [r Hr]. by exists "", r.
    + intros (pre & suf & H). destruct pre; push_app; [eauto | discriminate].
  - change (includes (String c s) q)
      with (String.prefix q (String c s) || includes s q).
    rewrite orb_true_iff, prefix_app, IH. split.
    + intros [[r Hr] | (pre & suf & H)].
      * by exists "", r.
      * exists (String c pre), suf. push_app. by rewrite H.
    + intros (pre & suf & H). destruct pre as [|c' pre]; push_app.
      * left. eauto.
      * right. injection H as -> ->. eauto.
Qed.

Lemma toLowerCase_app (a b : string) :
  toLowerCase (a +:+ b) = toLowerCase a +:+ toLowerCase b.
Proof.
  induction a as [|x a IH]; simpl; push_app; [done|]. simpl. by f_equal.
Qed.

Lemma toLowerCase_unapp (s a b : string) :
  toLowerCase s = a +:+ b →
  ∃ a' b', s = a' +:+ b' ∧ toLowerCase a' = a ∧ toLowerCase b' = b.
Proof.
  revert s. induction a as [|x a IH]; intros s H; push_app.
  - by exists "", s.
  - destruct s as [|c s]; simpl in H; [discriminate|].
    injection H as Hx Hs. destruct (IH _ Hs) as (a' & b' & -> & Ha & Hb).
    exists (String c a'), b'. push_app. simpl. by rewrite Hx, Ha.
Qed.

(** [includes] on the lowered strings is containment up to letter case. *)
Lemma includes_lower (s q : string) :
  includes (toLowerCase s) (toLowerCase q) = true ↔ Stated.icontains s q.
Proof.
  rewrite includes_spec. unfold Stated.icontains. split.
  - intros (pre & suf & H).
    apply toLowerCase_unapp in H as (pre' & rest & -> & _ & H).
    apply toLowerCase_unapp in H as (mid & suf' & -> & Hm & _).
    by exists pre', mid, suf'.
  - intros (pre & mid & suf & -> & Hm).
    exists (toLowerCase pre), (toLowerCase suf).
    by rewrite !toLowerCase_app, Hm.
Qed.

Lemma split_not_nil (sep : ascii) (s : string) : split sep s ≠ [].
Proof.
  induction s as [|c s IH]; simpl; [done|].
  destruct (Ascii.eqb c sep); [done|]. by destruct (split sep s).
Qed.

Lemma pop_split (sep : ascii) (s : string) : is_Some (pop (split sep s)).
Proof.
  unfold pop. pose proof (split_not_nil sep s) as H.
  destruct (split sep s) as [|w ws _] using rev_ind; [done|].
  rewrite last_snoc. eauto.
Qed.

(** The last piece of a split: the whole string when it holds no
    separator, what follows the last separator otherwise. *)
Lemma split_last (sep : ascii) (s : string) :
  ∃ ws ext,
    split sep s = (ws ++ [ext])%list
    ∧ Stated.sep_free sep ext
    ∧ (ws = [] ∧ s = ext ∨ ws ≠ [] ∧ ∃ stem, s = stem +:+ String sep ext).
Proof.
  induction s as [|c s (ws & ext & Hs & Hfree & Hshape)].
  - exists [], "". split; [done|]. split; [|by left].
    intros [|x pre] suf; push_app; discriminate.
  - simpl. destruct (Ascii.eqb_spec c sep) as [->|Hc].
    + exists ("" :: ws), ext. rewrite Hs. split; [done|]. split; [done|].
      right. split; [done|].
      destruct Hshape as [[_ ->] | [_ [stem ->]]].
      * by exists "".
      * by exists (String sep stem).
    + rewrite Hs. destruct Hshape as [[-> ->] | [Hws [stem ->]]].
      * exists [], (String c ext). split; [done|]. split; [|by left].
        intros [|x pre] suf; push_app; intros [= -> H]; [done|].
        by apply (Hfree pre suf).
      * destruct ws as [|w ws]; [done|].
        exists (String c w :: ws), ext. split; [done|]. split; [done|].
        right. split; [done|]. by exists (String c stem).
Qed.

End JSFacts.

(** ** [updateProfile] *)

Module UpdateProfileFacts.

(** Unfolds a handler down to the state monad and computes. *)
Ltac step_action :=
  unfold invoke, updateProfile, uploadAvatar, getConnectedAccounts,
    auth_getUser, storage_upload, storage_getPublicUrl, storage_remove,
    profiles_update, connected_accounts_select, revalidatePath,
    console_error, mbind, action_bind, bind, ret, emit, modify, read;
  cbn [fst snd backend trace app].

Lemma displayName_rejected_iff (displayName : option string) :
  displayName_rejected displayName = true ↔ Stated.violates displayName.
Proof.
  unfold displayName_rejected, Stated.violates, JS.truthy.
  destruct displayName as [s|]; [|done].
  rewrite !orb_true_iff, Nat.eqb_eq, Nat.ltb_lt, negb_true_iff, negb_false_iff.
  rewrite String.eqb_eq. split; [|tauto].
  intros [->|H]; [by left | done].
Qed.

Lemma displayName_accepted_iff (displayName : option string) :
  displayName_rejected displayName = false ↔
  ∃ s, displayName = Some s ∧ (1 ≤ String.length s ≤ 32)%nat.
Proof.
  rewrite <- not_true_iff_false, displayName_rejected_iff.
  unfold Stated.violates. destruct displayName as [s|].
  - split; [intros H; exists s; split; [done | lia]|].
    intros (s' & [= <-] & H). lia.
  - split; [tauto | intros (s & [=] & _)].
Qed.

Lemma updateProfile_anonymous env displayName s :
  current_user env = None →
  invoke (updateProfile env displayName) s
  = (Failure "User not authenticated",
     {| backend := s; trace := [AuthGetUser] |}).
Proof. intros H. step_action. by rewrite H. Qed.

Lemma updateProfile_rejected env u displayName s :
  current_user env = Some u →
  displayName_rejected displayName = true →
  invoke (updateProfile env displayName) s
  = (Failure "Display name must be between 1 and 32 characters",
     {| backend := s; trace := [AuthGetUser] |}).
Proof. intros Hu Hr. step_action. by rewrite Hu, Hr. Qed.

Lemma updateProfile_accepted env u displayName s :
  current_user env = Some u →
  displayName_rejected displayName = false →
  let patch := {| patch_display_name := displayName;
                  patch_avatar_url := None;
                  patch_updated_at := new_date env |} in
  invoke (updateProfile env displayName) s
  = match update_error env with
    | Some message =>
        (Failure ("Failed to update profile. " +:+ message),
         {| backend := s;
            trace := [AuthGetUser; RowUpdate "profiles" patch (user_id u);
                      ConsoleError "Error updating profile:"] |})
    | None =>
        (Success "Profile updated successfully" None,
         {| backend := patch_profile patch (user_id u) s;
            trace := [AuthGetUser; RowUpdate "profiles" patch (user_id u);
                      RevalidatePath "/settings";
                      RevalidatePath "/dashboard"] |})
    end.
Proof.
  intros Hu Hr. step_action. rewrite Hu, Hr.
  by destruct (update_error env).
Qed.

End UpdateProfileFacts.

(** C2, as stated, fails: the identity is looked up before the name is
    checked.  For a caller who is not signed in the result is the
    authentication error, not the validation error; for a caller who is
    signed in the validation error comes after one remote call. *)
Lemma C2_counterexample :
  ¬ Stated.rejected_without_remote_call Sample.anonymous None
      Sample.empty_state
  ∧ ¬ Stated.rejected_without_remote_call Sample.signed_in (Some "")
        Sample.empty_state.
Proof.
  split; intros H.
  - destruct (H I) as [E _]. vm_compute in E. discriminate E.
  - destruct (H (or_introl eq_refl)) as [_ E]. vm_compute in E. discriminate E.
Qed.

(** C2, amended.  For a display name that is absent, empty or longer than
    32, [updateProfile] makes exactly one remote call, the lookup of the
    caller's identity, writes nothing and invalidates no view; it returns
    the validation error when the caller is signed in and the
    authentication error otherwise. *)
Theorem C2_updateProfile_invalid_name env displayName s :
  Stated.violates displayName →
  trace (invoke (updateProfile env displayName) s).2 = [AuthGetUser]
  ∧ backend (invoke (updateProfile env displayName) s).2 = s
  ∧ (invoke (updateProfile env displayName) s).1
    = match current_user env with
      | Some _ => Failure "Display name must be between 1 and 32 characters"
      | None => Failure "User not authenticated"
      end.
Proof.
  intros H%UpdateProfileFacts.displayName_rejected_iff.
  destruct (current_user env) as [u|] eqn:Hu.
  - by rewrite (UpdateProfileFacts.updateProfile_rejected env u).
  - by rewrite UpdateProfileFacts.updateProfile_anonymous.
Qed.

Lemma C2_updateProfile_invalid_name_witness :
  Stated.violates (Some Sample.name33)
  ∧ trace (invoke (updateProfile Sample.signed_in (Some Sample.name33))
             Sample.state_with_alice).2 = [AuthGetUser]
  ∧ (invoke (updateProfile Sample.signed_in (Some Sample.name33))
       Sample.state_with_alice).1
    = Failure "Display name must be between 1 and 32 characters".
Proof.
  assert (H : Stated.violates (Some Sample.name33)) by (right; simpl; lia).
  split; [exact H|].
  split.
  - exact (proj1 (C2_updateProfile_invalid_name Sample.signed_in
                    (Some Sample.name33) Sample.state_with_alice H)).
  - exact (proj2 (proj2 (C2_updateProfile_invalid_name Sample.signed_in
                    (Some Sample.name33) Sample.state_with_alice H))).
Defined.

(** C5.  For a caller who is signed in, [updateProfile] rejects a display
    name of length 0 or 33 with the validation error, writing nothing; it
    accepts one of length 1 or 32: it issues the update of the [profiles]
    row keyed by the caller's id, setting the name and [updated_at], and
    reports success when the row store accepts it (the store's message
    otherwise). *)
Theorem C5_updateProfile_boundaries env u name s :
  current_user env = Some u →
  let out := invoke (updateProfile env (Some name)) s in
  let patch := {| patch_display_name := Some name;
                  patch_avatar_url := None;
                  patch_updated_at := new_date env |} in
  ((String.length name = 0 ∨ String.length name = 33)%nat →
     out.1 = Failure "Display name must be between 1 and 32 characters"
     ∧ out.2 = {| backend := s; trace := [AuthGetUser] |})
  ∧ ((String.length name = 1 ∨ String.length name = 32)%nat →
       RowUpdate "profiles" patch (user_id u) ∈ trace out.2
       ∧ match update_error env with
         | None =>
             out.1 = Success "Profile updated successfully" None
             ∧ profiles (backend out.2)
               = alter (apply_patch patch) (user_id u) (profiles s)
         | Some message =>
             out.1 = Failure ("Failed to update profile. " +:+ message)
             ∧ backend out.2 = s
         end).
Proof.
  intros Hu out patch. split; intros Hlen.
  - subst out. rewrite (UpdateProfileFacts.updateProfile_rejected env u); auto.
    apply UpdateProfileFacts.displayName_rejected_iff. simpl. lia.
  - assert (Hok : displayName_rejected (Some name) = false).
    { apply UpdateProfileFacts.displayName_accepted_iff.
      exists name. split; [done | lia]. }
    subst out.
    rewrite (UpdateProfileFacts.updateProfile_accepted env u _ s Hu Hok).
    fold patch. destruct (update_error env); simpl.
    + split; [|done]. apply list_elem_of_further, list_elem_of_here.
    + split; [|done]. apply list_elem_of_further, list_elem_of_here.
Qed.

Lemma C5_updateProfile_boundaries_witness :
  current_user Sample.signed_in = Some Sample.alice
  ∧ (invoke (updateProfile Sample.signed_in (Some "")) Sample.state_with_alice).1
    = Failure "Display name must be between 1 and 32 characters"
  ∧ (invoke (updateProfile Sample.signed_in (Some Sample.name33))
       Sample.state_with_alice).1
    = Failure "Display name must be between 1 and 32 characters"
  ∧ (invoke (updateProfile Sample.signed_in (Some "A"))
       Sample.state_with_alice).1
    = Success "Profile updated successfully" None
  ∧ (invoke (updateProfile Sample.signed_in (Some Sample.name32))
       Sample.state_with_alice).1
    = Success "Profile updated successfully" None.
Proof.
  split; [reflexivity|].
  split.
  { apply (C5_updateProfile_boundaries Sample.signed_in Sample.alice ""
             Sample.state_with_alice eq_refl). left. reflexivity. }
  split.
  { apply (C5_updateProfile_boundaries Sample.signed_in Sample.alice
             Sample.name33 Sample.state_with_alice eq_refl).
    right. reflexivity. }
  split.
  { apply (proj2 (C5_updateProfile_boundaries Sample.signed_in Sample.alice
                    "A" Sample.state_with_alice eq_refl)).
    left. reflexivity. }
  { apply (proj2 (C5_updateProfile_boundaries Sample.signed_in Sample.alice
                    Sample.name32 Sample.state_with_alice eq_refl)).
    right. reflexivity. }
Defined.

(** ** [uploadAvatar] *)

Module UploadAvatarFacts.

Import UpdateProfileFacts.

Lemma acceptable_guards (f : File) :
  Stated.acceptable f →
  (file_size f =? 0)%N = false
  ∧ (2 * 1024 * 1024 <? file_size f)%N = false
  ∧ JS.startsWith (file_type f) "image/" = true.
Proof.
  intros (H0 & Hmax & Himg). split; [by apply N.eqb_neq|].
  split; [by apply N.ltb_ge|]. by apply JSFacts.prefix_app.
Qed.

Lemma uploadAvatar_anonymous env avatar s :
  current_user env = None →
  invoke (uploadAvatar env avatar) s
  = (Failure "User not authenticated",
     {| backend := s; trace := [AuthGetUser] |}).
Proof. intros H. step_action. by rewrite H. Qed.

(** The three checks of lines 51-61, in their order. *)
Lemma uploadAvatar_checks env u avatar s :
  current_user env = Some u →
  match avatar with
  | None =>
      invoke (uploadAvatar env avatar) s
      = (Failure "No file selected",
         {| backend := s; trace := [AuthGetUser] |})
  | Some f =>
      if (file_size f =? 0)%N then
        invoke (uploadAvatar env avatar) s
        = (Failure "No file selected",
           {| backend := s; trace := [AuthGetUser] |})
      else if (2 * 1024 * 1024 <? file_size f)%N then
        invoke (uploadAvatar env avatar) s
        = (Failure "File size must be less than 2MB",
           {| backend := s; trace := [AuthGetUser] |})
      else if JS.startsWith (file_type f) "image/" then True
      else
        invoke (uploadAvatar env avatar) s
        = (Failure "File must be an image",
           {| backend := s; trace := [AuthGetUser] |})
  end.
Proof.
  intros Hu. destruct avatar as [f|]; step_action; rewrite Hu; [|done].
  destruct (file_size f =? 0)%N; [done|].
  destruct (2 * 1024 * 1024 <? file_size f)%N; [done|].
  by destruct (JS.startsWith (file_type f) "image/").
Qed.

(** Everything after the checks, by the answers of the collaborators. *)
Lemma uploadAvatar_accepted env u f s :
  current_user env = Some u →
  Stated.acceptable f →
  let path := filePath env u f in
  let url := public_url env "avatars" path in
  let patch := {| patch_display_name := None;
                  patch_avatar_url := url;
                  patch_updated_at := new_date env |} in
  invoke (uploadAvatar env (Some f)) s
  = match upload_error env with
    | Some message =>
        (Failure ("Failed to upload avatar. " +:+ message),
         {| backend := s;
            trace := [AuthGetUser; StorageUpload "avatars" path f;
                      ConsoleError "Error uploading avatar:"] |})
    | None =>
        if JS.truthy url then
          match update_error env with
          | Some message =>
              (Failure ("Failed to update profile with new avatar. "
                          +:+ message),
               {| backend :=
                    delete_objects "avatars" [path]
                      (put_object "avatars" path f s);
                  trace := [AuthGetUser; StorageUpload "avatars" path f;
                            StorageGetPublicUrl "avatars" path;
                            RowUpdate "profiles" patch (user_id u);
                            ConsoleError
                              "Error updating avatar URL in profile:";
                            StorageRemove "avatars" [path]] |})
          | None =>
              (Success "Avatar updated successfully" url,
               {| backend :=
                    patch_profile patch (user_id u)
                      (put_object "avatars" path f s);
                  trace := [AuthGetUser; StorageUpload "avatars" path f;
                            StorageGetPublicUrl "avatars" path;
                            RowUpdate "profiles" patch (user_id u);
                            RevalidatePath "/settings";
                            RevalidatePath "/dashboard"] |})
          end
        else
          (Failure "Failed to get avatar URL.",
           {| backend := put_object "avatars" path f s;
              trace := [AuthGetUser; StorageUpload "avatars" path f;
                        StorageGetPublicUrl "avatars" path;
                        ConsoleError
                          "Error getting public URL for avatar"] |})
    end.
Proof.
  intros Hu (H0 & Hmax & Himg)%acceptable_guards. step_action.
  rewrite Hu, H0, Hmax, Himg. cbn [negb].
  destruct (upload_error env); [done|]. cbn [fst snd backend trace app].
  destruct (JS.truthy _); cbn [negb]; [|done].
  by destruct (update_error env).
Qed.

End UploadAvatarFacts.

(** C4.  For a caller who is signed in, [uploadAvatar] checks the file in
    this order, the first failure ending the call with its own message and
    nothing but the identity lookup done: no file or an empty file; a size
    above 2 MiB (whatever the type); a type that does not begin with
    ["image/"].  A file of exactly 2 MiB with an image type passes: the
    handler goes on to upload it. *)
Theorem C4_uploadAvatar_checks_in_order env u avatar s :
  current_user env = Some u →
  let out := invoke (uploadAvatar env avatar) s in
  let rejected message :=
    out = (Failure message, {| backend := s; trace := [AuthGetUser] |}) in
  ((avatar = None ∨ ∃ f, avatar = Some f ∧ file_size f = 0%N) →
     rejected "No file selected")
  ∧ (∀ f, avatar = Some f → (2 * 1024 * 1024 < file_size f)%N →
       rejected "File size must be less than 2MB")
  ∧ (∀ f, avatar = Some f →
       (0 < file_size f ≤ 2 * 1024 * 1024)%N →
       (¬ ∃ rest, file_type f = "image/" +:+ rest) →
       rejected "File must be an image")
  ∧ (∀ f, avatar = Some f →
       file_size f = (2 * 1024 * 1024)%N →
       (∃ rest, file_type f = "image/" +:+ rest) →
       (∃ rest, trace out.2
                = AuthGetUser
                  :: StorageUpload "avatars" (filePath env u f) f :: rest)
       ∧ out.1 ≠ Failure "No file selected"
       ∧ out.1 ≠ Failure "File size must be less than 2MB"
       ∧ out.1 ≠ Failure "File must be an image")
  ∧ "No file selected" ≠ "File size must be less than 2MB"
  ∧ "No file selected" ≠ "File must be an image"
  ∧ "File size must be less than 2MB" ≠ "File must be an image".
Proof.
  intros Hu out rejected. subst out rejected. cbv beta.
  pose proof (UploadAvatarFacts.uploadAvatar_checks env u avatar s Hu) as Hc.
  split; [|split; [|split; [|split]]].
  - intros [->|(f & -> & H0)]; [done|].
    by rewrite (proj2 (N.eqb_eq _ _) H0) in Hc.
  - intros f -> Hbig.
    rewrite (proj2 (N.eqb_neq (file_size f) 0) ltac:(lia)) in Hc.
    by rewrite (proj2 (N.ltb_lt _ _) Hbig) in Hc.
  - intros f -> [Hpos Hmax] Htype.
    rewrite (proj2 (N.eqb_neq (file_size f) 0) ltac:(lia)) in Hc.
    rewrite (proj2 (N.ltb_ge _ _) Hmax) in Hc.
    destruct (JS.startsWith _ _) eqn:Hp; [|done].
    destruct Htype. by apply JSFacts.prefix_app.
  - intros f -> Hsize Htype.
    assert (Hacc : Stated.acceptable f).
    { split; [|split]; [lia | lia | done]. }
    rewrite (UploadAvatarFacts.uploadAvatar_accepted env u f s Hu Hacc).
    destruct (upload_error env) as [m|];
      [|destruct (JS.truthy _); [destruct (update_error env) as [m|]|]];
      cbn [fst snd trace];
      (split; [eauto|]);
      repeat split; intros [=].
  - repeat split; intros [=].
Qed.

Lemma C4_uploadAvatar_checks_in_order_witness :
  current_user Sample.signed_in = Some Sample.alice
  ∧ file_size Sample.portrait = (2 * 1024 * 1024)%N
  ∧ ∃ rest,
      trace (invoke (uploadAvatar Sample.signed_in (Some Sample.portrait))
               Sample.empty_state).2
      = AuthGetUser
        :: StorageUpload "avatars"
             (filePath Sample.signed_in Sample.alice Sample.portrait)
             Sample.portrait
        :: rest.
Proof.
  split; [reflexivity|]. split; [reflexivity|].
  destruct (C4_uploadAvatar_checks_in_order Sample.signed_in Sample.alice
              (Some Sample.portrait) Sample.empty_state eq_refl)
    as (_ & _ & _ & H & _).
  destruct (H Sample.portrait eq_refl eq_refl (ex_intro _ "png" eq_refl))
    as [Hr _].
  exact Hr.
Defined.

(** C1.  When the caller is signed in, the file passes the checks, the
    upload succeeds, a public URL comes back and the update of the profile
    row fails, [uploadAvatar] removes the object it has just uploaded, as
    its last call, and returns the error carrying the row store's message.
    The storage then holds nothing under the uploaded key; every other
    object and every profile row is as before. *)
Theorem C1_uploadAvatar_removes_orphan env u f s url message :
  current_user env = Some u →
  Stated.acceptable f →
  upload_error env = None →
  public_url env "avatars" (filePath env u f) = Some url →
  url ≠ "" →
  update_error env = Some message →
  let out := invoke (uploadAvatar env (Some f)) s in
  let path := filePath env u f in
  out.1 = Failure ("Failed to update profile with new avatar. " +:+ message)
  ∧ (∃ before,
       trace out.2 = (before ++ [StorageRemove "avatars" [path]])%list
       ∧ StorageUpload "avatars" path f ∈ before)
  ∧ objects (backend out.2) !! ("avatars", path) = None
  ∧ objects (backend out.2) = delete ("avatars", path) (objects s)
  ∧ profiles (backend out.2) = profiles s.
Proof.
  intros Hu Hacc Hup Hurl Hne Hdb out path. subst out path.
  rewrite (UploadAvatarFacts.uploadAvatar_accepted env u f s Hu Hacc).
  rewrite Hup, Hurl, Hdb. cbn [JS.truthy].
  rewrite (proj2 (String.eqb_neq url "") Hne). cbn [negb fst snd].
  split; [done|]. split.
  { eexists [_; _; _; _; _]. split; [reflexivity|].
    apply list_elem_of_further, list_elem_of_here. }
  cbn [backend delete_objects put_object objects profiles foldr].
  rewrite delete_insert_eq. split; [apply lookup_delete_eq | done].
Qed.

Lemma C1_uploadAvatar_removes_orphan_witness :
  Stated.acceptable Sample.portrait
  ∧ (invoke (uploadAvatar Sample.update_fails (Some Sample.portrait))
       Sample.state_with_alice).1
    = Failure "Failed to update profile with new avatar. row level security"
  ∧ objects
      (backend
         (invoke (uploadAvatar Sample.update_fails (Some Sample.portrait))
            Sample.state_with_alice).2)
    !! ("avatars", "avatars/u1-1700000000000.png") = None.
Proof.
  assert (Hacc : Stated.acceptable Sample.portrait).
  { split; [done|]. split; [done|]. by exists "png". }
  split; [exact Hacc|].
  destruct (C1_uploadAvatar_removes_orphan Sample.update_fails Sample.alice
              Sample.portrait Sample.state_with_alice
              "https://cdn.example/avatars/avatars/u1-1700000000000.png"
              "row level security" eq_refl Hacc eq_refl eq_refl
              ltac:(discriminate) eq_refl)
    as (Hr & _ & Hgone & _).
  split; [exact Hr | exact Hgone].
Defined.

(** C10.  When the caller is signed in, the file passes the checks and the
    upload succeeds but no public URL comes back, [uploadAvatar] returns
    the error "Failed to get avatar URL." without any removal: the object
    stays in storage under the uploaded key.  The handler removes an
    object only after a failed update of the profile row. *)
Theorem C10_uploadAvatar_keeps_object_without_url env u f s :
  current_user env = Some u →
  Stated.acceptable f →
  let out := invoke (uploadAvatar env (Some f)) s in
  let path := filePath env u f in
  (upload_error env = None →
   JS.truthy (public_url env "avatars" path) = false →
     out.1 = Failure "Failed to get avatar URL."
     ∧ (∀ b ks, StorageRemove b ks ∉ trace out.2)
     ∧ objects (backend out.2) !! ("avatars", path) = Some f)
  ∧ (∀ b ks, StorageRemove b ks ∈ trace out.2 →
       upload_error env = None
       ∧ JS.truthy (public_url env "avatars" path) = true
       ∧ is_Some (update_error env)).
Proof.
  intros Hu Hacc out path. subst out path.
  rewrite (UploadAvatarFacts.uploadAvatar_accepted env u f s Hu Hacc).
  split.
  - intros -> ->. cbn [fst snd backend trace objects put_object].
    split; [done|]. split; [|apply lookup_insert_eq].
    intros b ks H. rewrite !elem_of_cons, elem_of_nil in H.
    by destruct H as [?|[?|[?|[?|[]]]]].
  - intros b ks.
    destruct (upload_error env);
      [|destruct (JS.truthy _); [destruct (update_error env)|]];
      cbn [snd trace]; rewrite !elem_of_cons, elem_of_nil; intros H;
      first [ by eauto
            | decompose [or] H; first [discriminate | contradiction] ].
Qed.

Lemma C10_uploadAvatar_keeps_object_without_url_witness :
  Stated.acceptable Sample.portrait
  ∧ (invoke (uploadAvatar Sample.no_url (Some Sample.portrait))
       Sample.empty_state).1
    = Failure "Failed to get avatar URL."
  ∧ objects
      (backend
         (invoke (uploadAvatar Sample.no_url (Some Sample.portrait))
            Sample.empty_state).2)
    !! ("avatars", "avatars/u1-1700000000000.png") = Some Sample.portrait.
Proof.
  assert (Hacc : Stated.acceptable Sample.portrait).
  { split; [done|]. split; [done|]. by exists "png". }
  split; [exact Hacc|].
  destruct (C10_uploadAvatar_keeps_object_without_url Sample.no_url
              Sample.alice Sample.portrait Sample.empty_state eq_refl Hacc)
    as [H _].
  destruct (H eq_refl eq_refl) as (Hr & _ & Hkept).
  split; [exact Hr | exact Hkept].
Defined.

(** C9, as stated, fails: the key the storage calls name is not the bare
    [{id}-{millis}.{ext}]; for alice's [me.png] at instant 1700000000000 it
    is ["avatars/u1-1700000000000.png"]. *)
Lemma C9_counterexample :
  ¬ Stated.keyed_as_stated Sample.signed_in Sample.alice Sample.portrait
      Sample.empty_state.
Proof.
  intros (ext & Hext & H). vm_compute in Hext. injection Hext as <-.
  specialize (H "avatars" "avatars/u1-1700000000000.png").
  assert (Hk : "avatars/u1-1700000000000.png"
               = Stated.stated_key Sample.signed_in Sample.alice "png").
  { apply H. vm_compute. apply list_elem_of_here. }
  vm_compute in Hk. discriminate Hk.
Qed.

(** C9, amended.  For an upload that passes the checks, the object is
    uploaded to the bucket ["avatars"] under the key ["avatars/"] followed
    by [{id}-{millis}.{ext}]: the caller's id, a hyphen, [Date.now()] in
    decimal, a dot and the last dot-separated piece of the file name (the
    whole name when it holds no dot).  Every storage call of the handler
    (upload, public URL, removal) names that bucket and that key. *)
Theorem C9_uploadAvatar_storage_key env u f s :
  current_user env = Some u →
  Stated.acceptable f →
  let out := invoke (uploadAvatar env (Some f)) s in
  ∃ ext,
    fileExtension f = Some ext
    ∧ Stated.sep_free "." ext
    ∧ (file_name f = ext ∨ ∃ stem, file_name f = stem +:+ "." +:+ ext)
    ∧ filePath env u f = "avatars/" +:+ Stated.stated_key env u ext
    ∧ (∃ rest, trace out.2
               = AuthGetUser
                 :: StorageUpload "avatars" (filePath env u f) f :: rest)
    ∧ ∀ b k, (b, k) ∈ Stated.storage_keys (trace out.2) →
             b = "avatars" ∧ k = filePath env u f.
Proof.
  intros Hu Hacc out. subst out.
  destruct (JSFacts.split_last "." (file_name f))
    as (ws & ext & Hsplit & Hfree & Hshape).
  assert (Hext : fileExtension f = Some ext).
  { unfold fileExtension, JS.pop. rewrite Hsplit. apply last_snoc. }
  exists ext. split; [done|]. split; [done|]. split.
  { destruct Hshape as [[_ ->] | [_ [stem ->]]]; [by left | right; by exists stem]. }
  split.
  { unfold filePath, fileName, Stated.stated_key. by rewrite Hext. }
  rewrite (UploadAvatarFacts.uploadAvatar_accepted env u f s Hu Hacc).
  destruct (upload_error env);
    [|destruct (JS.truthy _); [destruct (update_error env)|]];
    cbn [snd trace Stated.storage_keys flat_map app fmap list_fmap];
    (split; [eauto|]); intros b k;
    rewrite ?elem_of_cons, elem_of_nil; intros H;
    decompose [or] H; first [contradiction | by simplify_eq].
Qed.

Lemma C9_uploadAvatar_storage_key_witness :
  Stated.acceptable Sample.portrait
  ∧ ∃ ext,
      fileExtension Sample.portrait = Some ext
      ∧ filePath Sample.signed_in Sample.alice Sample.portrait
        = "avatars/"
          +:+ Stated.stated_key Sample.signed_in Sample.alice ext.
Proof.
  assert (Hacc : Stated.acceptable Sample.portrait).
  { split; [done|]. split; [done|]. by exists "png". }
  split; [exact Hacc|].
  destruct (C9_uploadAvatar_storage_key Sample.signed_in Sample.alice
              Sample.portrait Sample.empty_state eq_refl Hacc)
    as (ext & Hext & _ & _ & Hpath & _).
  exists ext. split; [exact Hext | exact Hpath].
Defined.

(** ** [getConnectedAccounts] *)

Module ConnectedAccountsFacts.

Import UpdateProfileFacts.

Global Instance created_le_total : Total created_le.
Proof. intros a b. unfold created_le. lia. Qed.

Global Instance created_le_trans : Transitive created_le.
Proof. intros a b c. unfold created_le. lia. Qed.

Lemma accounts_of_sorted uid rows : StronglySorted created_le (accounts_of uid rows).
Proof. apply StronglySorted_merge_sort; apply _. Qed.

Lemma accounts_of_perm uid rows :
  accounts_of uid rows ≡ₚ filter (λ r, account_user_id r = uid) rows.
Proof. apply merge_sort_Permutation. Qed.

Lemma getConnectedAccounts_run env s :
  invoke (getConnectedAccounts env) s
  = match current_user env with
    | None =>
        ({| accounts_error := Some "User not authenticated"; accounts := [] |},
         {| backend := s; trace := [AuthGetUser] |})
    | Some u =>
        let select := RowSelect "connected_accounts" (user_id u) "created_at" in
        match select_error env with
        | Some message =>
            ({| accounts_error :=
                  Some ("Failed to fetch connected accounts. " +:+ message);
                accounts := [] |},
             {| backend := s;
                trace := [AuthGetUser; select;
                          ConsoleError "Error fetching connected accounts:"] |})
        | None =>
            ({| accounts_error := None;
                accounts := accounts_of (user_id u) (connected_accounts s) |},
             {| backend := s; trace := [AuthGetUser; select] |})
        end
    end.
Proof.
  step_action. destruct (current_user env) as [u|]; [|done].
  by destruct (select_error env).
Qed.

Example getConnectedAccounts_alice :
  account_id <$>
    accounts (invoke (getConnectedAccounts Sample.signed_in)
                Sample.state_with_alice).1
  = ["c1"; "c2"].
Proof. vm_compute. reflexivity. Qed.

End ConnectedAccountsFacts.

(** C6.  [getConnectedAccounts] never writes and never invalidates a view:
    the backend is as before and its only calls are the identity lookup,
    the query, and a diagnostic log when the query fails.  For a caller who
    is not signed in it returns an error with an empty list; when the query
    fails, the error carrying the row store's message with an empty list;
    otherwise no error and exactly the connected-account rows of the
    caller's identity, ordered by creation time ascending. *)
Theorem C6_getConnectedAccounts_read_only env s :
  let out := invoke (getConnectedAccounts env) s in
  backend out.2 = s
  ∧ List.filter is_effect (trace out.2) = []
  ∧ match current_user env with
    | None =>
        out.1 = {| accounts_error := Some "User not authenticated";
                   accounts := [] |}
    | Some u =>
        match select_error env with
        | Some message =>
            out.1 = {| accounts_error :=
                         Some ("Failed to fetch connected accounts. "
                                 +:+ message);
                       accounts := [] |}
        | None =>
            accounts_error out.1 = None
            ∧ accounts out.1
              ≡ₚ filter (λ r, account_user_id r = user_id u)
                   (connected_accounts s)
            ∧ (∀ r, r ∈ accounts out.1 ↔
                    r ∈ connected_accounts s
                    ∧ account_user_id r = user_id u)
            ∧ StronglySorted
                (λ a b, account_created_at a ≤ account_created_at b)
                (accounts out.1)
        end
    end.
Proof.
  intros out. subst out.
  rewrite ConnectedAccountsFacts.getConnectedAccounts_run.
  destruct (current_user env) as [u|]; [|done].
  destruct (select_error env) as [m|]; [done|].
  cbn [fst snd backend trace accounts accounts_error List.filter is_effect].
  split; [done|]. split; [done|]. split; [done|].
  pose proof (ConnectedAccountsFacts.accounts_of_perm (user_id u)
                (connected_accounts s)) as Hp.
  split; [exact Hp|]. split.
  - intros r. rewrite Hp, list_elem_of_filter. tauto.
  - apply ConnectedAccountsFacts.accounts_of_sorted.
Qed.

(** ** [searchActivity] *)

Module SearchActivityFacts.

Lemma matches_iff query item :
  matches query item = true ↔
  Stated.icontains (title item) query
  ∨ Stated.icontains (description item) query.
Proof.
  unfold matches. by rewrite orb_true_iff, !JSFacts.includes_lower.
Qed.

Lemma filter_sublist {A} (p : A → bool) (l : list A) :
  sublist (List.filter p l) l.
Proof.
  induction l as [|x l IH]; simpl; [constructor|].
  destruct (p x); by constructor.
Qed.

Lemma searchActivity_empty now : searchActivity now "" = mockResults now.
Proof. reflexivity. Qed.

Lemma searchActivity_nonempty now query :
  query ≠ "" →
  searchActivity now query = List.filter (matches query) (mockResults now).
Proof.
  intros H. unfold searchActivity, JS.truthy.
  by rewrite (proj2 (String.eqb_neq query "") H).
Qed.

(** The predicate reads the query through [toLowerCase] only. *)
Lemma matches_lower q1 q2 item :
  JS.toLowerCase q1 = JS.toLowerCase q2 → matches q1 item = matches q2 item.
Proof. unfold matches. by intros ->. Qed.

Example searchActivity_mixed_case :
  activity_id <$> searchActivity 1700000000000 "QueueCX" = ["1"]
  ∧ activity_id <$> searchActivity 1700000000000 "ENVIRONMENT" = ["1"; "2"]
  ∧ activity_id <$> searchActivity 1700000000000 " i" = ["1"; "3"]
  ∧ searchActivity 1700000000000 "billing" = [].
Proof. vm_compute. done. Qed.

End SearchActivityFacts.

(** C7.  [searchActivity] draws from a fixed list of 3 candidates, none
    of them twice.  The empty query returns the whole list.  Any other
    query returns, in the order of the list, exactly the candidates whose
    title or description contains the query as a substring, letter case
    apart: nothing when no candidate does, and the first candidate alone
    for ["queuecx"] in any letter case.  (Letter case is that of ASCII,
    which is all the candidates hold.) *)
Theorem C7_searchActivity_filters now query :
  length (mockResults now) = 3%nat
  ∧ NoDup (mockResults now)
  ∧ (query = "" → searchActivity now query = mockResults now)
  ∧ (query ≠ "" →
       sublist (searchActivity now query) (mockResults now)
       ∧ (∀ item, item ∈ searchActivity now query ↔
                  item ∈ mockResults now
                  ∧ (Stated.icontains (title item) query
                     ∨ Stated.icontains (description item) query))
       ∧ ((∀ item, item ∈ mockResults now →
                   ¬ Stated.icontains (title item) query
                   ∧ ¬ Stated.icontains (description item) query) →
          searchActivity now query = []))
  ∧ (JS.toLowerCase query = "queuecx" →
       searchActivity now query = take 1 (mockResults now)).
Proof.
  split; [done|]. split.
  { apply (NoDup_fmap_1 activity_id). cbn. by apply (bool_decide_unpack _). }
  split; [by intros ->|]. split.
  - intros Hq. rewrite (SearchActivityFacts.searchActivity_nonempty _ _ Hq).
    split; [apply SearchActivityFacts.filter_sublist|].
    assert (Hmem : ∀ item,
      item ∈ List.filter (matches query) (mockResults now) ↔
      item ∈ mockResults now
      ∧ (Stated.icontains (title item) query
         ∨ Stated.icontains (description item) query)).
    { intros item.
      by rewrite !list_elem_of_In, filter_In,
        SearchActivityFacts.matches_iff. }
    split; [exact Hmem|].
    intros Hnone.
    destruct (List.filter (matches query) (mockResults now))
      as [|item rest] eqn:Hf; [done|].
    assert (Hin : item ∈ item :: rest) by apply list_elem_of_here.
    apply Hmem in Hin as [Hin Hc]. destruct (Hnone item Hin). tauto.
  - intros Hlow.
    assert (Hq : query ≠ "") by (intros ->; discriminate Hlow).
    rewrite (SearchActivityFacts.searchActivity_nonempty _ _ Hq).
    rewrite (filter_ext (matches query) (matches "queuecx")).
    + reflexivity.
    + intros item. apply SearchActivityFacts.matches_lower.
      by rewrite Hlow.
Qed.

Lemma C7_searchActivity_filters_witness :
  JS.toLowerCase "QueueCX" = "queuecx"
  ∧ searchActivity 1700000000000 "QueueCX"
    = take 1 (mockResults 1700000000000)
  ∧ searchActivity 1700000000000 "" = mockResults 1700000000000.
Proof.
  split; [reflexivity|].
  destruct (C7_searchActivity_filters 1700000000000 "QueueCX")
    as (_ & _ & _ & _ & Hcase).
  destruct (C7_searchActivity_filters 1700000000000 "")
    as (_ & _ & Hempty & _).
  split; [exact (Hcase eq_refl) | exact (Hempty eq_refl)].
Defined.


(** ** The auth provider *)

Module AuthProviderFacts.

Import AuthProvider.

(** Computes the setters of the mirror. *)
Ltac set_fields :=
  cbn [user session loading mounted awaiting_initial in_flight source
       setUser setSession setLoading set_runtime updateUserProfile_user
       updateUserProfile_null profile auth_user] in *.

Lemma not_in_flight_nil (x : Origin * User) :
  bool_decide (x ∈ @nil (Origin * User)) = false.
Proof. apply bool_decide_eq_false, not_elem_of_nil. Qed.

Lemma on_session_fields o s m :
  session (on_session o s m) = s
  ∧ mounted (on_session o s m) = mounted m
  ∧ match s with
    | None =>
        user (on_session o s m) = None
        ∧ source (on_session o s m) = Unset
        ∧ loading (on_session o s m) = false
        ∧ in_flight (on_session o s m) = in_flight m
    | Some s' =>
        user (on_session o s m) = user m
        ∧ source (on_session o s m) = source m
        ∧ loading (on_session o s m) = loading m
        ∧ in_flight (on_session o s m)
          = (in_flight m ++ [(o, session_user s')])%list
    end.
Proof. by destruct s. Qed.

Lemma inv_initial c : Stated.mirrored_inv c initial.
Proof. by split. Qed.

Lemma inv_step c m e m' :
  step c m e = Some m' → Stated.mirrored_inv c m → Stated.mirrored_inv c m'.
Proof.
  intros H [Hm Hfl]. unfold Stated.mirrored_inv, Stated.mirrored in *.
  destruct (demo c) eqn:Hd.
  - specialize (Hfl eq_refl).
    destruct e as [now|o s|o u r|email pw|email pw|]; cbn [step] in H;
      unfold signIn, signUp, signOut in H; rewrite ?Hd in H.
    + destruct (mounted m); simplify_eq. set_fields. eauto.
    + destruct o; discriminate H.
    + rewrite Hfl, not_in_flight_nil in H. discriminate H.
    + simplify_eq. set_fields. eauto.
    + simplify_eq. set_fields. eauto.
    + simplify_eq. set_fields. eauto.
  - split; [|done].
    destruct e as [now|o s|o u r|email pw|email pw|]; cbn [step] in H;
      unfold signIn, signUp, signOut in H; rewrite ?Hd in H.
    + destruct (mounted m); simplify_eq. by set_fields.
    + assert (∃ m0, m' = on_session o s m0 ∧ user m0 = user m
                    ∧ source m0 = source m) as (m0 & -> & Hu & Hs).
      { destruct o; cbn [negb andb] in H;
          repeat match type of H with
                 | context [if ?b then _ else _] => destruct b
                 end; simplify_eq; eauto. }
      destruct (on_session_fields o s m0) as (_ & _ & Hf).
      destruct s as [s'|].
      * destruct Hf as (-> & -> & _). by rewrite Hu, Hs.
      * by destruct Hf as (-> & -> & _).
    + destruct (bool_decide _); simplify_eq. set_fields.
      exists (succeeded r). split; [done|].
      unfold fetchUserProfile, demo in *.
      destruct (supabase c); [|by rewrite orb_true_r in Hd].
      destruct r; cbn; split; (done || by intros [? [=]] || eauto).
    + by simplify_eq.
    + by simplify_eq.
    + by simplify_eq.
Qed.

Lemma inv_exec c evs : ∀ m m',
  exec c m evs = Some m' → Stated.mirrored_inv c m → Stated.mirrored_inv c m'.
Proof.
  induction evs as [|e evs IH]; intros m m' H Hinv; cbn [exec] in H.
  - by simplify_eq.
  - destruct (step c m e) as [m1|] eqn:Hstep; [|done].
    eauto using inv_step.
Qed.

(** Nothing sets [loading] back to [true]. *)
Lemma step_loading_mono c m e m' :
  step c m e = Some m' → loading m = false → loading m' = false.
Proof.
  intros H Hl.
  destruct e as [now|o s|o u r|email pw|email pw|]; cbn [step] in H;
    unfold signIn, signUp, signOut in H.
  - destruct (mounted m), (demo c); simplify_eq; by set_fields.
  - assert (∃ m0, m' = on_session o s m0 ∧ loading m0 = loading m)
      as (m0 & -> & Hl0).
    { destruct o;
        repeat match type of H with
               | context [if ?b then _ else _] => destruct b
               end; simplify_eq; eauto. }
    destruct (on_session_fields o s m0) as (_ & _ & Hf).
    destruct s; destruct Hf as (_ & _ & -> & _); [congruence | done].
  - destruct (bool_decide _); by simplify_eq.
  - destruct (demo c); by simplify_eq.
  - destruct (demo c); by simplify_eq.
  - destruct (demo c); by simplify_eq.
Qed.

(** With a backend, [loading] falls exactly at a completed resolution. *)
Lemma step_loading c m e m' :
  demo c = false →
  step c m e = Some m' →
  loading m'
  = loading m && negb (completes Initial e || completes Change e).
Proof.
  intros Hd H.
  destruct e as [now|o s|o u r|email pw|email pw|]; cbn [step] in H;
    unfold signIn, signUp, signOut in H; rewrite ?Hd in H;
    cbn [completes orb negb].
  - destruct (mounted m); simplify_eq. set_fields. by rewrite andb_true_r.
  - assert (∃ m0, m' = on_session o s m0 ∧ loading m0 = loading m)
      as (m0 & -> & Hl0).
    { destruct o; cbn [negb andb] in H;
        repeat match type of H with
               | context [if ?b then _ else _] => destruct b
               end; simplify_eq; eauto. }
    destruct (on_session_fields o s m0) as (_ & _ & Hf).
    destruct s; destruct Hf as (_ & _ & -> & _).
    + by rewrite Hl0, andb_true_r.
    + by destruct o; rewrite andb_false_r.
  - destruct (bool_decide (_ ∈ _)); simplify_eq. set_fields.
    by destruct o; rewrite andb_false_r.
  - simplify_eq. by rewrite andb_true_r.
  - simplify_eq. by rewrite andb_true_r.
  - simplify_eq. by rewrite andb_true_r.
Qed.

Lemma exec_loading c evs : ∀ m m',
  demo c = false →
  exec c m evs = Some m' →
  loading m'
  = loading m
    && negb (Stated.completed Initial evs || Stated.completed Change evs).
Proof.
  unfold Stated.completed.
  induction evs as [|e evs IH]; intros m m' Hd H; cbn [exec existsb] in *.
  - simplify_eq. by rewrite andb_true_r.
  - destruct (step c m e) as [m1|] eqn:Hstep; [|done].
    rewrite (IH _ _ Hd H), (step_loading _ _ _ _ Hd Hstep).
    destruct (loading m), (completes Initial e), (completes Change e),
      (existsb (completes Initial) evs), (existsb (completes Change) evs);
      reflexivity.
Qed.

Lemma exec_loading_mono c evs : ∀ m m',
  exec c m evs = Some m' → loading m = false → loading m' = false.
Proof.
  induction evs as [|e evs IH]; intros m m' H Hl; cbn [exec] in H.
  - by simplify_eq.
  - destruct (step c m e) as [m1|] eqn:Hstep; [|done].
    eauto using step_loading_mono.
Qed.

Lemma loading_history_head c m evs :
  ∃ rest, loading_history c m evs = loading m :: rest.
Proof. destruct evs; cbn [loading_history]; eauto. Qed.

Lemma flips_cons a b x y l :
  flips a b (x :: y :: l)
  = ((if Bool.eqb x a && Bool.eqb y b then 1 else 0) + flips a b (y :: l))%nat.
Proof. reflexivity. Qed.

(** Along a run [loading] never rises, and falls once if it falls. *)
Lemma flips_loading_history c evs : ∀ m m',
  exec c m evs = Some m' →
  flips false true (loading_history c m evs) = 0%nat
  ∧ flips true false (loading_history c m evs)
    = (if loading m && negb (loading m') then 1 else 0)%nat.
Proof.
  induction evs as [|e evs IH]; intros m m' H;
    cbn [exec loading_history] in *.
  - simplify_eq. cbn. by destruct (loading m').
  - destruct (step c m e) as [m1|] eqn:Hstep; [|done].
    destruct (IH _ _ H) as [IH1 IH2].
    destruct (loading_history_head c m1 evs) as [rest Hrest].
    rewrite Hrest in *. rewrite !flips_cons, IH1, IH2.
    pose proof (step_loading_mono _ _ _ _ Hstep) as Hs.
    pose proof (exec_loading_mono _ _ _ _ H) as He.
    destruct (loading m), (loading m1), (loading m'); cbn;
      first [done | by specialize (Hs eq_refl) | by specialize (He eq_refl)].
Qed.

End AuthProviderFacts.

(** C3, as stated, fails: without a backend the identity set up at mount
    carries a profile although no profile fetch was made, let alone
    succeeded. *)
Lemma C3_counterexample :
  ∃ m, AuthProvider.exec Sample.offline AuthProvider.initial
         [AuthProvider.Mount 0] = Some m
       ∧ ¬ Stated.mirrored_as_stated m.
Proof.
  eexists. split; [reflexivity|].
  unfold Stated.mirrored_as_stated. cbn. intros [H _].
  specialize (H (ex_intro _ _ eq_refl)). discriminate H.
Qed.

(** C3, amended.  In every state the provider reaches, the mirrored
    identity is null exactly when no user is resolved (nothing resolved
    yet, a session without a user, a sign-out in demo mode).  With a
    backend, an identity comes from a profile fetch and its profile is
    present exactly when the fetch gave a row; a fetch that fails leaves an
    identity without a profile, never null.  In demo mode no fetch is
    made: the identity of the mount carries the demo profile, the one of a
    sign-in or sign-up carries none. *)
Theorem C3_mirrored_identity c evs m :
  AuthProvider.exec c AuthProvider.initial evs = Some m →
  Stated.mirrored c m
  ∧ (AuthProvider.user m = None
     ↔ AuthProvider.source m = AuthProvider.Unset)
  ∧ (∀ o u r m',
       AuthProvider.step c m (AuthProvider.ProfileFetched o u r) = Some m' →
       AuthProvider.demo c = false
       ∧ ∃ p, AuthProvider.user m'
              = Some {| AuthProvider.auth_user := u;
                        AuthProvider.profile := p |}
              ∧ (is_Some p ↔ AuthProvider.succeeded r = true)).
Proof.
  intros H.
  pose proof (AuthProviderFacts.inv_exec c evs _ _ H
                (AuthProviderFacts.inv_initial c)) as [Hm Hfl].
  split; [exact Hm|]. split.
  - unfold Stated.mirrored in Hm.
    destruct (AuthProvider.user m) as [i|]; [|done].
    split; [done|]. intros Hs. rewrite Hs in Hm.
    destruct (AuthProvider.demo c); [by destruct Hm | by destruct Hm as (? & ? & _)].
  - intros o u r m' Hstep. cbn [AuthProvider.step] in Hstep.
    destruct (AuthProvider.demo c) eqn:Hd.
    { rewrite (Hfl eq_refl), AuthProviderFacts.not_in_flight_nil in Hstep.
      discriminate Hstep. }
    split; [done|].
    destruct (bool_decide _); simplify_eq.
    exists (AuthProvider.fetchUserProfile c r). split; [done|].
    unfold AuthProvider.fetchUserProfile, AuthProvider.demo in *.
    destruct (AuthProvider.supabase c); [|by rewrite orb_true_r in Hd].
    destruct r; cbn; split; (done || by intros [? [=]] || eauto).
Qed.

Lemma C3_mirrored_identity_witness :
  ∃ m,
    AuthProvider.exec Sample.live AuthProvider.initial
      Sample.failed_fetch_run = Some m
    ∧ AuthProvider.user m
      = Some {| AuthProvider.auth_user := Sample.alice;
                AuthProvider.profile := None |}
    ∧ Stated.mirrored Sample.live m.
Proof.
  eexists. split; [reflexivity|]. split; [reflexivity|].
  exact (proj1 (C3_mirrored_identity Sample.live Sample.failed_fetch_run
                  _ eq_refl)).
Defined.

(** C8, as stated, fails: the listener clears [loading] as well.  When
    the auth service reports a change that resolves before [getSession]
    does, [loading] is already [false] while the initial resolution is
    still pending. *)
Lemma C8_counterexample :
  ∃ m,
    AuthProvider.demo Sample.live = false
    ∧ AuthProvider.exec Sample.live AuthProvider.initial
        Sample.early_change_run = Some m
    ∧ AuthProvider.awaiting_initial m = true
    ∧ AuthProvider.loading_history Sample.live AuthProvider.initial
        Sample.early_change_run = [true; true; false]
    ∧ ¬ Stated.falls_at_initial Sample.early_change_run m.
Proof.
  eexists. split; [reflexivity|]. split; [reflexivity|].
  split; [reflexivity|]. split; [reflexivity|].
  unfold Stated.falls_at_initial. cbn. discriminate.
Qed.

(** C8, amended.  With a backend, [loading] starts [true] and is [false]
    exactly from the first completed session resolution on, be it the
    initial one or a session change that completes earlier.  So it is
    [false] once the initial resolution has completed; along any run it
    falls exactly once and never rises; and as long as no session-change
    resolution has completed it is [true] exactly until the initial
    resolution completes.  Every session-change event stores its session,
    and its resolution stores the identity, without [loading] going back
    to [true]. *)
Theorem C8_loading_falls_once c evs m :
  AuthProvider.demo c = false →
  AuthProvider.exec c AuthProvider.initial evs = Some m →
  AuthProvider.loading AuthProvider.initial = true
  ∧ (Stated.completed AuthProvider.Initial evs = true →
       AuthProvider.loading m = false
       ∧ AuthProvider.flips true false
           (AuthProvider.loading_history c AuthProvider.initial evs)
         = 1%nat)
  ∧ AuthProvider.flips false true
      (AuthProvider.loading_history c AuthProvider.initial evs) = 0%nat
  ∧ AuthProvider.loading m
    = negb (Stated.completed AuthProvider.Initial evs
            || Stated.completed AuthProvider.Change evs)
  ∧ AuthProvider.flips true false
      (AuthProvider.loading_history c AuthProvider.initial evs)
    = (if AuthProvider.loading m then 0 else 1)%nat
  ∧ (Stated.completed AuthProvider.Change evs = false →
       Stated.falls_at_initial evs m)
  ∧ (∀ e m', AuthProvider.step c m e = Some m' →
             AuthProvider.loading m = false →
             AuthProvider.loading m' = false)
  ∧ (∀ s m',
       AuthProvider.step c m
         (AuthProvider.SessionResolved AuthProvider.Change s) = Some m' →
       AuthProvider.session m' = s
       ∧ match s with
         | None =>
             AuthProvider.user m' = None ∧ AuthProvider.loading m' = false
         | Some _ =>
             AuthProvider.user m' = AuthProvider.user m
             ∧ AuthProvider.loading m' = AuthProvider.loading m
         end)
  ∧ (∀ u r m',
       AuthProvider.step c m
         (AuthProvider.ProfileFetched AuthProvider.Change u r) = Some m' →
       AuthProvider.user m'
       = Some {| AuthProvider.auth_user := u;
                 AuthProvider.profile := AuthProvider.fetchUserProfile c r |}
       ∧ AuthProvider.session m' = AuthProvider.session m
       ∧ AuthProvider.loading m' = false).
Proof.
  intros Hd H.
  pose proof (AuthProviderFacts.exec_loading c evs _ _ Hd H) as Hl.
  destruct (AuthProviderFacts.flips_loading_history c evs _ _ H)
    as [Hrise Hfall].
  cbn [AuthProvider.loading AuthProvider.initial andb] in Hl, Hfall.
  split; [done|]. split.
  { intros Hi. rewrite Hi in Hl. cbn in Hl. by rewrite Hfall, Hl. }
  split; [exact Hrise|]. split; [exact Hl|]. split.
  { rewrite Hfall. by destruct (AuthProvider.loading m). }
  split.
  { intros Hc. unfold Stated.falls_at_initial.
    by rewrite Hl, Hc, orb_false_r. }
  split; [intros e m'; apply AuthProviderFacts.step_loading_mono|].
  split.
  - intros s m' Hstep. cbn [AuthProvider.step] in Hstep. rewrite Hd in Hstep.
    destruct (AuthProvider.mounted m); cbn in Hstep; simplify_eq.
    destruct (AuthProviderFacts.on_session_fields AuthProvider.Change s m)
      as (Hs & _ & Hf).
    split; [exact Hs|]. destruct s; tauto.
  - intros u r m' Hstep. cbn [AuthProvider.step] in Hstep.
    destruct (bool_decide _); by simplify_eq.
Qed.

Lemma C8_loading_falls_once_witness :
  ∃ m,
    AuthProvider.demo Sample.live = false
    ∧ AuthProvider.exec Sample.live AuthProvider.initial
        Sample.sign_out_run = Some m
    ∧ AuthProvider.loading m = false
    ∧ AuthProvider.flips true false
        (AuthProvider.loading_history Sample.live AuthProvider.initial
           Sample.sign_out_run)
      = 1%nat.
Proof.
  eexists. split; [reflexivity|]. split; [reflexivity|].
  exact (proj1 (proj2 (C8_loading_falls_once Sample.live Sample.sign_out_run
                         _ eq_refl eq_refl))
           eq_refl).
Defined.

(** * Further properties of the server actions *)

Module ActionFacts.

Import UpdateProfileFacts.

(** [uploadAvatar] either stops at a guard, having done nothing but the
    identity lookup, or has a signed-in caller and a file that passes. *)
Lemma uploadAvatar_cases env avatar s :
  (∃ message,
     invoke (uploadAvatar env avatar) s
     = (Failure message, {| backend := s; trace := [AuthGetUser] |})
     ∧ message ∈ ["User not authenticated"; "No file selected";
                  "File size must be less than 2MB";
                  "File must be an image"])
  ∨ (∃ u f, current_user env = Some u ∧ avatar = Some f
            ∧ Stated.acceptable f).
Proof.
  destruct (current_user env) as [u|] eqn:Hu.
  - pose proof (UploadAvatarFacts.uploadAvatar_checks env u avatar s Hu) as H.
    destruct avatar as [f|].
    + destruct (file_size f =? 0)%N eqn:H0.
      { left. eexists. split; [exact H|]. set_solver. }
      destruct (2 * 1024 * 1024 <? file_size f)%N eqn:Hmax.
      { left. eexists. split; [exact H|]. set_solver. }
      destruct (JS.startsWith (file_type f) "image/") eqn:Himg.
      * right. exists u, f. split; [done|]. split; [done|].
        split; [by apply N.eqb_neq|]. split; [by apply N.ltb_ge|].
        by apply JSFacts.prefix_app.
      * left. eexists. split; [exact H|]. set_solver.
    + left. eexists. split; [exact H|]. set_solver.
  - left. eexists. split;
      [by apply UploadAvatarFacts.uploadAvatar_anonymous|]. set_solver.
Qed.

(** [updateProfile], by its three ways out. *)
Lemma updateProfile_cases env displayName s :
  (∃ message,
     invoke (updateProfile env displayName) s
     = (Failure message, {| backend := s; trace := [AuthGetUser] |}))
  ∨ (∃ u name,
       current_user env = Some u ∧ displayName = Some name
       ∧ (1 ≤ String.length name ≤ 32)%nat).
Proof.
  destruct (current_user env) as [u|] eqn:Hu.
  - destruct (displayName_rejected displayName) eqn:Hr.
    + left. eexists. by apply (updateProfile_rejected env u).
    + right. apply displayName_accepted_iff in Hr as (name & -> & Hlen).
      by exists u, name.
  - left. eexists. by apply updateProfile_anonymous.
Qed.

Lemma accepted_not_rejected name :
  (1 ≤ String.length name ≤ 32)%nat →
  displayName_rejected (Some name) = false.
Proof. intros H. apply displayName_accepted_iff. by exists name. Qed.

Lemma updatePersonalization_run systemPrompt notes s :
  invoke (updatePersonalization systemPrompt notes) s
  = if (1000 <? String.length systemPrompt)%nat then
      (PersonalizationError "System prompt must be 1000 characters or less",
       {| backend := s; trace := [] |})
    else if (2000 <? String.length notes)%nat then
      (PersonalizationError "Notes must be 2000 characters or less",
       {| backend := s; trace := [] |})
    else
      (PersonalizationSaved "Personalization settings updated successfully",
       {| backend := s; trace := [RevalidatePath "/settings"] |}).
Proof.
  unfold updatePersonalization.
  destruct (1000 <? _)%nat; [done|]. by destruct (2000 <? _)%nat.
Qed.

Lemma length_app (a b : string) :
  String.length (a +:+ b) = (String.length a + String.length b)%nat.
Proof.
  induction a as [|x a IH]; JSFacts.push_app; cbn [String.length];
    [done | by rewrite IH].
Qed.

Lemma app_inv_tail (a b c : string) : a +:+ c = b +:+ c → a = b.
Proof.
  revert b. induction a as [|x a IH]; intros [|y b] H; JSFacts.push_app.
  - done.
  - apply (f_equal String.length) in H.
    cbn [String.length] in H. rewrite length_app in H. lia.
  - apply (f_equal String.length) in H.
    cbn [String.length] in H. rewrite length_app in H. lia.
  - injection H as -> H. f_equal. by apply IH.
Qed.

(** The path of an upload tells the instant of the upload, for a given
    caller and extension. *)
Lemma filePath_instant env1 env2 u f1 f2 :
  fileExtension f1 = fileExtension f2 →
  filePath env1 u f1 = filePath env2 u f2 →
  date_now env1 = date_now env2.
Proof.
  unfold filePath, fileName. intros -> H.
  do 3 apply (inj (String.app _)) in H.
  apply app_inv_tail in H. by apply (inj pretty) in H.
Qed.

(** What an accepted upload does to the stored objects and to the rows,
    by its result. *)
Lemma uploadAvatar_accepted_backend env u f s :
  current_user env = Some u →
  Stated.acceptable f →
  let out := invoke (uploadAvatar env (Some f)) s in
  let key := ("avatars", filePath env u f) in
  connected_accounts (backend out.2) = connected_accounts s
  ∧ (∀ k, k ≠ key → objects (backend out.2) !! k = objects s !! k)
  ∧ match out.1 with
    | Success _ avatarUrl =>
        ∃ url, avatarUrl = Some url ∧ url ≠ ""
               ∧ public_url env "avatars" (filePath env u f) = Some url
               ∧ objects (backend out.2) !! key = Some f
               ∧ profiles (backend out.2)
                 = alter (Notions.repictured url (new_date env)) (user_id u)
                     (profiles s)
               ∧ Notions.invalidated (trace out.2)
                 = ["/settings"; "/dashboard"]
    | Failure error =>
        profiles (backend out.2) = profiles s
        ∧ Notions.invalidated (trace out.2) = []
        ∧ (error ≠ "Failed to get avatar URL." →
           objects (backend out.2) !! key = None
           ∨ objects (backend out.2) = objects s)
    end.
Proof.
  intros Hu Hacc out key. subst out key.
  rewrite (UploadAvatarFacts.uploadAvatar_accepted env u f s Hu Hacc).
  destruct (upload_error env) as [m|]; cbn [fst snd backend trace].
  { repeat split; eauto. }
  destruct (public_url env "avatars" (filePath env u f)) as [url|] eqn:Hurl;
    cbn [JS.truthy]; [destruct (String.eqb_spec url "") as [->|Hne]|];
    cbn [negb fst snd backend trace].
  - cbn [put_object objects profiles connected_accounts].
    split; [done|]. split; [intros k Hk; by rewrite lookup_insert_ne|].
    split; [done|]. split; [done|]. by intros [].
  - destruct (update_error env) as [m|]; cbn [fst snd backend trace];
      cbn [put_object delete_objects patch_profile objects profiles
           connected_accounts foldr].
    + split; [done|]. split.
      { intros k Hk. by rewrite lookup_delete_ne, lookup_insert_ne. }
      split; [done|]. split; [done|]. intros _. left.
      apply lookup_delete_eq.
    + split; [done|]. split; [intros k Hk; by rewrite lookup_insert_ne|].
      exists url. split; [done|]. split; [done|]. split; [done|].
      split; [apply lookup_insert_eq|]. done.
  - cbn [put_object objects profiles connected_accounts].
    split; [done|]. split; [intros k Hk; by rewrite lookup_insert_ne|].
    split; [done|]. split; [done|]. by intros [].
Qed.

End ActionFacts.

(** X1.  Whatever the display name and whatever the row store answers,
    [updateProfile] neither creates nor deletes a profile row, leaves the
    stored objects and the connected accounts alone, and changes at most
    the row of the caller: there only the display name, which becomes the
    submitted one, and [updated_at]. *)
Theorem X1_updateProfile_frame env displayName s :
  let s' := backend (invoke (updateProfile env displayName) s).2 in
  objects s' = objects s
  ∧ connected_accounts s' = connected_accounts s
  ∧ dom (profiles s') = dom (profiles s)
  ∧ ∀ id,
      profiles s' !! id = profiles s !! id
      ∨ ∃ u name,
          current_user env = Some u ∧ id = user_id u
          ∧ displayName = Some name
          ∧ (1 ≤ String.length name ≤ 32)%nat
          ∧ profiles s' !! id
            = Notions.renamed name (new_date env) <$> profiles s !! id.
Proof.
  intros s'. subst s'.
  destruct (ActionFacts.updateProfile_cases env displayName s)
    as [[message ->] | (u & name & Hu & -> & Hlen)].
  { cbn. repeat split; eauto. }
  rewrite (UpdateProfileFacts.updateProfile_accepted env u _ s Hu
             (ActionFacts.accepted_not_rejected name Hlen)).
  destruct (update_error env); cbn [snd backend].
  { repeat split; eauto. }
  cbn [patch_profile objects connected_accounts profiles].
  split; [done|]. split; [done|]. split; [apply dom_alter_L|].
  intros id. destruct (decide (id = user_id u)) as [->|Hne].
  - right. exists u, name. repeat split; try done; try lia.
    by rewrite lookup_alter_eq.
  - left. by rewrite lookup_alter_ne.
Qed.

(** X2.  [updateProfile] invalidates views exactly when it succeeds, and
    then ["/settings"] followed by ["/dashboard"]; when it fails the
    backend is as before. *)
Theorem X2_updateProfile_invalidates_on_success env displayName s :
  let out := invoke (updateProfile env displayName) s in
  match out.1 with
  | Success _ _ =>
      Notions.invalidated (trace out.2) = ["/settings"; "/dashboard"]
  | Failure _ =>
      Notions.invalidated (trace out.2) = [] ∧ backend out.2 = s
  end.
Proof.
  intros out. subst out.
  destruct (ActionFacts.updateProfile_cases env displayName s)
    as [[message ->] | (u & name & Hu & -> & Hlen)]; [done|].
  rewrite (UpdateProfileFacts.updateProfile_accepted env u _ s Hu
             (ActionFacts.accepted_not_rejected name Hlen)).
  by destruct (update_error env).
Qed.

(** X3.  Whatever the file and whatever the collaborators answer,
    [uploadAvatar] neither creates nor deletes a profile row, leaves the
    connected accounts alone, touches no stored object but the one under
    the path it derives, and changes at most the row of the caller: there
    only the avatar URL and [updated_at]. *)
Theorem X3_uploadAvatar_frame env avatar s :
  let out := invoke (uploadAvatar env avatar) s in
  connected_accounts (backend out.2) = connected_accounts s
  ∧ dom (profiles (backend out.2)) = dom (profiles s)
  ∧ (∀ id,
       profiles (backend out.2) !! id = profiles s !! id
       ∨ ∃ u url,
           current_user env = Some u ∧ id = user_id u
           ∧ out.1 = Success "Avatar updated successfully" (Some url)
           ∧ profiles (backend out.2) !! id
             = Notions.repictured url (new_date env) <$> profiles s !! id)
  ∧ (∀ k,
       objects (backend out.2) !! k = objects s !! k
       ∨ ∃ u f, current_user env = Some u ∧ avatar = Some f
                ∧ k = ("avatars", filePath env u f)).
Proof.
  intros out. subst out.
  destruct (ActionFacts.uploadAvatar_cases env avatar s)
    as [(message & -> & _) | (u & f & Hu & -> & Hacc)].
  { cbn. repeat split; eauto. }
  destruct (ActionFacts.uploadAvatar_accepted_backend env u f s Hu Hacc)
    as (Hca & Hobj & Hres).
  split; [done|].
  assert (Hk : ∀ k,
    objects (backend (invoke (uploadAvatar env (Some f)) s).2) !! k
    = objects s !! k
    ∨ ∃ u0 f0, current_user env = Some u0 ∧ Some f = Some f0
               ∧ k = ("avatars", filePath env u0 f0)).
  { intros k. destruct (decide (k = ("avatars", filePath env u f))) as [->|Hne].
    - right. by exists u, f.
    - left. by apply Hobj. }
  destruct (invoke (uploadAvatar env (Some f)) s).1 as [e|msg avatarUrl] eqn:Hr.
  - destruct Hres as (Hp & _). rewrite Hp. repeat split; eauto.
  - destruct Hres as (url & -> & _ & _ & _ & Hp & _). rewrite Hp.
    split; [apply dom_alter_L|]. split; [|done].
    intros id. destruct (decide (id = user_id u)) as [->|Hne].
    + right. exists u, url. split; [done|]. split; [done|].
      rewrite lookup_alter_eq. split; [|done].
      pose proof (UploadAvatarFacts.uploadAvatar_accepted env u f s Hu Hacc)
        as Hrun.
      rewrite Hrun in Hr.
      destruct (upload_error env); [discriminate Hr|].
      destruct (JS.truthy _); [|discriminate Hr].
      destruct (update_error env); [discriminate Hr|].
      cbn in Hr. by injection Hr as <- _.
    + left. by rewrite lookup_alter_ne.
Qed.

(** X4.  [uploadAvatar] invalidates views exactly when it succeeds, and
    then ["/settings"] followed by ["/dashboard"]; the URL it returns is
    then the public URL of the path it uploaded to, where the file is
    stored.  When it fails no profile row has changed, and unless the
    failure is the missing public URL the storage holds no object that it
    did not hold before. *)
Theorem X4_uploadAvatar_outcomes env avatar s :
  let out := invoke (uploadAvatar env avatar) s in
  match out.1 with
  | Success _ avatarUrl =>
      Notions.invalidated (trace out.2) = ["/settings"; "/dashboard"]
      ∧ ∃ u f url,
          current_user env = Some u ∧ avatar = Some f
          ∧ avatarUrl = Some url ∧ url ≠ ""
          ∧ public_url env "avatars" (filePath env u f) = Some url
          ∧ objects (backend out.2) !! ("avatars", filePath env u f) = Some f
  | Failure error =>
      Notions.invalidated (trace out.2) = []
      ∧ profiles (backend out.2) = profiles s
      ∧ (error ≠ "Failed to get avatar URL." →
         ∀ k o, objects (backend out.2) !! k = Some o →
                objects s !! k = Some o)
  end.
Proof.
  intros out. subst out.
  destruct (ActionFacts.uploadAvatar_cases env avatar s)
    as [(message & -> & _) | (u & f & Hu & -> & Hacc)]; [done|].
  destruct (ActionFacts.uploadAvatar_accepted_backend env u f s Hu Hacc)
    as (_ & Hobj & Hres).
  destruct (invoke (uploadAvatar env (Some f)) s).1 as [e|msg avatarUrl].
  - destruct Hres as (Hp & Hinv & Hkey). split; [done|]. split; [done|].
    intros He k o Hko.
    destruct (decide (k = ("avatars", filePath env u f))) as [->|Hne].
    + destruct (Hkey He) as [Hnone | Hsame]; [congruence | by rewrite <- Hsame].
    + by rewrite <- (Hobj k Hne).
  - destruct Hres as (url & -> & Hne & Hurl & Hstored & _ & Hinv).
    split; [done|]. by exists u, f, url.
Qed.

(** X5.  A later upload by the same caller, at another instant, goes to
    another path (for files with the same extension), and whatever its
    outcome it neither overwrites nor removes the object of an earlier
    successful upload. *)
Theorem X5_uploadAvatar_keeps_earlier_object env1 env2 u f1 f2 s :
  current_user env1 = Some u →
  current_user env2 = Some u →
  Stated.acceptable f1 →
  fileExtension f1 = fileExtension f2 →
  date_now env1 ≠ date_now env2 →
  let out1 := invoke (uploadAvatar env1 (Some f1)) s in
  let out2 := invoke (uploadAvatar env2 (Some f2)) (backend out1.2) in
  filePath env1 u f1 ≠ filePath env2 u f2
  ∧ ((∃ message url, out1.1 = Success message url) →
     objects (backend out2.2) !! ("avatars", filePath env1 u f1) = Some f1).
Proof.
  intros Hu1 Hu2 Hacc1 Hext Hnow out1 out2.
  assert (Hpath : filePath env1 u f1 ≠ filePath env2 u f2).
  { intros H. by apply Hnow, (ActionFacts.filePath_instant _ _ u f1 f2). }
  split; [done|]. intros (message & url & Hok).
  assert (Hfirst :
    objects (backend out1.2) !! ("avatars", filePath env1 u f1) = Some f1).
  { destruct (ActionFacts.uploadAvatar_accepted_backend env1 u f1 s Hu1 Hacc1)
      as (_ & _ & Hres).
    fold out1 in Hres. rewrite Hok in Hres.
    by destruct Hres as (? & _ & _ & _ & H & _). }
  subst out2.
  destruct (ActionFacts.uploadAvatar_cases env2 (Some f2) (backend out1.2))
    as [(m & -> & _) | (u' & f' & Hu' & [= <-] & Hacc2)]; [done|].
  assert (u' = u) as -> by congruence.
  destruct (ActionFacts.uploadAvatar_accepted_backend env2 u f2
              (backend out1.2) Hu2 Hacc2) as (_ & Hobj & _).
  rewrite Hobj; [done|]. congruence.
Qed.

Lemma X5_uploadAvatar_keeps_earlier_object_witness :
  filePath Sample.signed_in Sample.alice Sample.portrait
  ≠ filePath Notions.signed_in_later Sample.alice Sample.portrait
  ∧ objects
      (backend
         (invoke (uploadAvatar Notions.signed_in_later (Some Sample.portrait))
            (backend
               (invoke (uploadAvatar Sample.signed_in (Some Sample.portrait))
                  Sample.empty_state).2)).2)
    !! ("avatars", filePath Sample.signed_in Sample.alice Sample.portrait)
    = Some Sample.portrait.
Proof.
  assert (Hacc : Stated.acceptable Sample.portrait).
  { split; [done|]. split; [done|]. by exists "png". }
  destruct (X5_uploadAvatar_keeps_earlier_object Sample.signed_in
              Notions.signed_in_later Sample.alice Sample.portrait
              Sample.portrait Sample.empty_state eq_refl eq_refl Hacc eq_refl
              ltac:(discriminate)) as [Hpath Hkept].
  split; [exact Hpath|].
  apply Hkept. eexists _, _. vm_compute. reflexivity.
Defined.

(** X6.  The two profile handlers compose: when both succeed for a caller
    who has a row, in either order, the row ends with the submitted
    display name and the URL of the uploaded avatar; neither undoes the
    other, and [updated_at] is the instant of the later one. *)
Theorem X6_name_and_avatar_compose envp enva u name f url row s :
  current_user envp = Some u →
  current_user enva = Some u →
  (1 ≤ String.length name ≤ 32)%nat →
  Stated.acceptable f →
  update_error envp = None →
  upload_error enva = None →
  update_error enva = None →
  public_url enva "avatars" (filePath enva u f) = Some url →
  url ≠ "" →
  profiles s !! user_id u = Some row →
  let named := backend (invoke (updateProfile envp (Some name)) s).2 in
  let pictured := backend (invoke (uploadAvatar enva (Some f)) s).2 in
  profiles (backend (invoke (uploadAvatar enva (Some f)) named).2)
    !! user_id u
  = Some {| profile_id := profile_id row; display_name := name;
            avatar_url := Some url; profile_email := profile_email row;
            created_at := created_at row; updated_at := new_date enva |}
  ∧ profiles (backend (invoke (updateProfile envp (Some name)) pictured).2)
      !! user_id u
    = Some {| profile_id := profile_id row; display_name := name;
              avatar_url := Some url; profile_email := profile_email row;
              created_at := created_at row; updated_at := new_date envp |}.
Proof.
  intros Hup Hua Hlen Hacc Hp Hupl Ha Hurl Hne Hrow named pictured.
  subst named pictured.
  pose proof (ActionFacts.accepted_not_rejected name Hlen) as Hok.
  rewrite !(UpdateProfileFacts.updateProfile_accepted envp u _ _ Hup Hok).
  rewrite !(UploadAvatarFacts.uploadAvatar_accepted enva u f _ Hua Hacc).
  rewrite Hp, Hupl, Ha, Hurl. cbn [JS.truthy].
  rewrite (proj2 (String.eqb_neq url "") Hne).
  cbn [negb snd backend patch_profile put_object profiles].
  by rewrite !lookup_alter_eq, Hrow.
Qed.

Lemma X6_name_and_avatar_compose_witness :
  profiles
    (backend
       (invoke (uploadAvatar Sample.signed_in (Some Sample.portrait))
          (backend
             (invoke (updateProfile Sample.signed_in (Some "Alice L."))
                Sample.state_with_alice).2)).2)
    !! "u1"
  = Some {| profile_id := "u1"; display_name := "Alice L.";
            avatar_url :=
              Some "https://cdn.example/avatars/avatars/u1-1700000000000.png";
            profile_email := "alice@example.com"; created_at := 1000;
            updated_at := 1700000000001 |}.
Proof.
  assert (Hacc : Stated.acceptable Sample.portrait).
  { split; [done|]. split; [done|]. by exists "png". }
  exact (proj1 (X6_name_and_avatar_compose Sample.signed_in Sample.signed_in
                  Sample.alice "Alice L." Sample.portrait
                  "https://cdn.example/avatars/avatars/u1-1700000000000.png"
                  Sample.alice_row Sample.state_with_alice
                  eq_refl eq_refl ltac:(cbn; lia) Hacc eq_refl eq_refl eq_refl
                  eq_refl ltac:(discriminate) eq_refl)).
Defined.

(** X7.  The extension that [uploadAvatar] puts in the path is what
    follows the last dot of the file name: for a name [stem.ext] with no
    dot in [ext] it is [ext], empty when the name ends in a dot; for a
    name without a dot it is the whole name. *)
Theorem X7_fileExtension_last_piece f :
  (∀ stem ext,
     Stated.sep_free "." ext →
     file_name f = stem +:+ "." +:+ ext →
     fileExtension f = Some ext)
  ∧ (Stated.sep_free "." (file_name f) →
     fileExtension f = Some (file_name f))
  ∧ (∀ stem, file_name f = stem +:+ "." → fileExtension f = Some "").
Proof.
  assert (Huniq : ∀ a b e1 e2,
    Stated.sep_free "." e1 → Stated.sep_free "." e2 →
    a +:+ String "." e1 = b +:+ String "." e2 → e1 = e2).
  { induction a as [|x a IH]; intros [|y b] e1 e2 H1 H2 H; JSFacts.push_app.
    - by injection H.
    - injection H as _ H. by destruct (H1 b e2).
    - injection H as _ H. by destruct (H2 a e1).
    - injection H as _ H. by apply (IH b). }
  assert (Hlast : ∀ stem ext,
    Stated.sep_free "." ext →
    file_name f = stem +:+ "." +:+ ext → fileExtension f = Some ext).
  { intros stem ext Hfree Hname.
    destruct (JSFacts.split_last "." (file_name f))
      as (ws & ext' & Hsplit & Hfree' & Hshape).
    unfold fileExtension, JS.pop. rewrite Hsplit, last_snoc. f_equal.
    destruct Hshape as [[_ Heq] | [_ [stem' Heq]]].
    - destruct (Hfree' stem ext). by rewrite <- Heq.
    - rewrite Hname in Heq. symmetry. by apply (Huniq stem stem'). }
  split; [exact Hlast|]. split.
  - intros Hfree.
    destruct (JSFacts.split_last "." (file_name f))
      as (ws & ext' & Hsplit & Hfree' & Hshape).
    unfold fileExtension, JS.pop. rewrite Hsplit, last_snoc. f_equal.
    destruct Hshape as [[_ Heq] | [_ [stem' Heq]]]; [done|].
    by destruct (Hfree stem' ext').
  - intros stem Hname. apply (Hlast stem ""); [|done].
    intros [|x pre] suf; JSFacts.push_app; discriminate.
Qed.

Lemma X7_fileExtension_last_piece_witness :
  fileExtension
    {| file_name := "holiday.2024.jpeg"; file_size := 10;
       file_type := "image/jpeg" |} = Some "jpeg".
Proof.
  apply (proj1 (X7_fileExtension_last_piece
                  {| file_name := "holiday.2024.jpeg"; file_size := 10;
                     file_type := "image/jpeg" |}) "holiday.2024" "jpeg");
    [|reflexivity].
  intros pre suf H.
  assert (Hin : JS.includes "jpeg" "." = true).
  { apply JSFacts.includes_spec. by exists pre, suf. }
  discriminate Hin.
Defined.

(** X8.  [updatePersonalization] needs no identity and reaches no
    collaborator; it saves nothing.  It succeeds exactly when the system
    prompt has at most 1000 characters and the notes at most 2000, and
    only then invalidates ["/settings"]; the prompt is checked first, so a
    prompt that is too long is what is reported even when the notes are
    too long as well. *)
Theorem X8_updatePersonalization_bounds systemPrompt notes s :
  let out := invoke (updatePersonalization systemPrompt notes) s in
  backend out.2 = s
  ∧ List.filter is_remote (trace out.2) = []
  ∧ ((String.length systemPrompt ≤ 1000 ∧ String.length notes ≤ 2000)%nat
     ↔ out.1 = PersonalizationSaved
                 "Personalization settings updated successfully")
  ∧ ((1000 < String.length systemPrompt)%nat →
     out.1 = PersonalizationError
               "System prompt must be 1000 characters or less")
  ∧ ((String.length systemPrompt ≤ 1000)%nat →
     (2000 < String.length notes)%nat →
     out.1 = PersonalizationError "Notes must be 2000 characters or less")
  ∧ Notions.invalidated (trace out.2)
    = match out.1 with
      | PersonalizationSaved _ => ["/settings"]
      | PersonalizationError _ => []
      end.
Proof.
  intros out. subst out. rewrite ActionFacts.updatePersonalization_run.
  destruct (Nat.ltb_spec 1000 (String.length systemPrompt)) as [Hp|Hp];
    [|destruct (Nat.ltb_spec 2000 (String.length notes)) as [Hn|Hn]];
    cbn [fst snd backend trace List.filter Notions.invalidated flat_map
         is_remote app];
    repeat split; try done; try lia; intros; try lia; try discriminate.
Qed.

Lemma X8_updatePersonalization_bounds_witness :
  (invoke (updatePersonalization (Notions.letters 1000) (Notions.letters 2000))
     Sample.empty_state).1
  = PersonalizationSaved "Personalization settings updated successfully"
  ∧ (invoke (updatePersonalization (Notions.letters 1001)
               (Notions.letters 2001)) Sample.empty_state).1
    = PersonalizationError "System prompt must be 1000 characters or less"
  ∧ (invoke (updatePersonalization (Notions.letters 1000)
               (Notions.letters 2001)) Sample.empty_state).1
    = PersonalizationError "Notes must be 2000 characters or less".
Proof.
  split; [|split].
  - apply (X8_updatePersonalization_bounds (Notions.letters 1000)
             (Notions.letters 2000) Sample.empty_state).
    split; apply Nat.leb_le; vm_compute; reflexivity.
  - apply (X8_updatePersonalization_bounds (Notions.letters 1001)
             (Notions.letters 2001) Sample.empty_state).
    apply Nat.ltb_lt. vm_compute. reflexivity.
  - apply (X8_updatePersonalization_bounds (Notions.letters 1000)
             (Notions.letters 2001) Sample.empty_state).
    + apply Nat.leb_le. vm_compute. reflexivity.
    + apply Nat.ltb_lt. vm_compute. reflexivity.
Defined.

(** * Further properties of [searchActivity] *)

Module SearchFacts.

Lemma toLowerCase_nil s : JS.toLowerCase s = "" ↔ s = "".
Proof. destruct s; split; intros H; by try discriminate H. Qed.

Lemma icontains_trans a b c :
  Stated.icontains a b → Stated.icontains b c → Stated.icontains a c.
Proof.
  rewrite <- !JSFacts.includes_lower, !JSFacts.includes_spec.
  intros (p & q & ->) (p' & q' & ->).
  exists (p +:+ p'), (q' +:+ q). by rewrite !JSFacts.app_assoc.
Qed.

Lemma filter_sublist_impl {A} (p q : A → bool) (l : list A) :
  (∀ x, p x = true → q x = true) →
  sublist (List.filter p l) (List.filter q l).
Proof.
  intros H. induction l as [|x l IH]; cbn [List.filter]; [constructor|].
  destruct (p x) eqn:Hp.
  - rewrite (H x Hp). by constructor.
  - destruct (q x); by try constructor.
Qed.

End SearchFacts.

(** X9.  Making a query longer never adds results: when a query occurs in
    another one, letter case apart, the results of the longer one are
    among the results of the shorter one, in the same order. *)
Theorem X9_searchActivity_refines now shorter longer :
  Stated.icontains longer shorter →
  sublist (searchActivity now longer) (searchActivity now shorter).
Proof.
  intros Hin.
  destruct (decide (shorter = "")) as [->|Hs].
  { destruct (decide (longer = "")) as [->|Hl]; [done|].
    rewrite (SearchActivityFacts.searchActivity_nonempty _ _ Hl).
    apply SearchActivityFacts.filter_sublist. }
  assert (Hl : longer ≠ "").
  { intros ->. destruct Hin as (pre & mid & suf & Heq & Hm).
    destruct pre; JSFacts.push_app; [|discriminate Heq].
    destruct mid; JSFacts.push_app; [|discriminate Heq].
    cbn in Hm. symmetry in Hm.
    by apply (proj1 (SearchFacts.toLowerCase_nil shorter)) in Hm. }
  rewrite !SearchActivityFacts.searchActivity_nonempty by done.
  apply SearchFacts.filter_sublist_impl. intros item.
  rewrite !SearchActivityFacts.matches_iff.
  intros [H|H]; [left | right]; eauto using SearchFacts.icontains_trans.
Qed.

Lemma X9_searchActivity_refines_witness :
  Stated.icontains "Index Analysis" "INDEX"
  ∧ sublist (searchActivity 1700000000000 "Index Analysis")
      (searchActivity 1700000000000 "INDEX").
Proof.
  assert (H : Stated.icontains "Index Analysis" "INDEX").
  { by exists "", "Index", " Analysis". }
  split; [exact H|].
  exact (X9_searchActivity_refines 1700000000000 "INDEX" "Index Analysis" H).
Defined.

(** X10.  [searchActivity] does not tell queries apart that differ in
    letter case only. *)
Theorem X10_searchActivity_ignores_case now q1 q2 :
  JS.toLowerCase q1 = JS.toLowerCase q2 →
  searchActivity now q1 = searchActivity now q2.
Proof.
  intros H.
  destruct (decide (q1 = "")) as [->|H1].
  { cbn in H. symmetry in H.
    by apply (proj1 (SearchFacts.toLowerCase_nil q2)) in H as ->. }
  assert (H2 : q2 ≠ "").
  { intros ->. cbn in H.
    by apply (proj1 (SearchFacts.toLowerCase_nil q1)) in H. }
  rewrite !SearchActivityFacts.searchActivity_nonempty by done.
  apply filter_ext. intros item.
  by apply SearchActivityFacts.matches_lower.
Qed.

Lemma X10_searchActivity_ignores_case_witness :
  searchActivity 1700000000000 "fluidity"
  = searchActivity 1700000000000 "FLUIDITY".
Proof.
  exact (X10_searchActivity_ignores_case 1700000000000 "fluidity" "FLUIDITY"
           eq_refl).
Defined.

(** * Further properties of the auth provider *)

Module ProviderFacts.

Import AuthProvider AuthProviderFacts.

Lemma exec_snoc c m evs e :
  exec c m (evs ++ [e])
  = match exec c m evs with
    | Some m' => step c m' e
    | None => None
    end.
Proof.
  revert m. induction evs as [|e' evs IH]; intros m; cbn [exec app].
  - by destruct (step c m e).
  - destruct (step c m e'); [apply IH | done].
Qed.

(** In demo mode only calls are enabled once the effect has run, and
    they move nothing but the identity and the session. *)
Lemma demo_step c m e m' :
  demo c = true →
  mounted m = true → in_flight m = [] →
  step c m e = Some m' →
  Notions.is_call e = true
  ∧ mounted m' = true ∧ in_flight m' = []
  ∧ loading m' = loading m
  ∧ (session m = None → session m' = None)
  ∧ user m' = match e with
              | SignIn email _ | SignUp email _ => Some (local_identity email)
              | SignOut => None
              | _ => user m
              end.
Proof.
  intros Hd Hm Hfl H.
  destruct e as [now|o s|o u r|email pw|email pw|]; cbn [step] in H;
    unfold signIn, signUp, signOut in H; rewrite ?Hd, ?Hm, ?Hfl in H.
  - discriminate H.
  - destruct o; discriminate H.
  - rewrite not_in_flight_nil in H. discriminate H.
  - by simplify_eq.
  - by simplify_eq.
  - by simplify_eq.
Qed.

(** With a backend, a step stores the session of a resolution and keeps
    the session otherwise; calls keep the whole state. *)
Lemma live_step_session c m e m' :
  demo c = false →
  step c m e = Some m' →
  session m' = match e with
               | SessionResolved _ s => s
               | _ => session m
               end
  ∧ (Notions.is_call e = true → m' = m).
Proof.
  intros Hd H.
  destruct e as [now|o s|o u r|email pw|email pw|]; cbn [step] in H;
    unfold signIn, signUp, signOut in H; rewrite ?Hd in H.
  - destruct (mounted m); by simplify_eq.
  - split; [|done].
    destruct o; cbn [negb andb] in H;
      repeat match type of H with
             | context [if ?b then _ else _] => destruct b
             end; simplify_eq; apply on_session_fields.
  - destruct (bool_decide _); by simplify_eq.
  - by simplify_eq.
  - by simplify_eq.
  - by simplify_eq.
Qed.

Lemma demo_exec c evs : ∀ m m',
  demo c = true →
  mounted m = true → in_flight m = [] →
  loading m = false → session m = None →
  exec c m evs = Some m' →
  loading m' = false ∧ session m' = None ∧ in_flight m' = []
  ∧ Forall (λ e, Notions.is_call e = true) evs
  ∧ user m'
    = foldl (λ acc e,
               match e with
               | SignIn email _ | SignUp email _ =>
                   Some (local_identity email)
               | SignOut => None
               | _ => acc
               end) (user m) evs.
Proof.
  induction evs as [|e evs IH]; intros m m' Hd Hm Hfl Hl Hs He;
    cbn [exec foldl] in *.
  - simplify_eq. by repeat split.
  - destruct (step c m e) as [m1|] eqn:Hstep; [|done].
    destruct (demo_step c m e m1 Hd Hm Hfl Hstep)
      as (Hcall & Hm1 & Hfl1 & Hl1 & Hs1 & Hu1).
    destruct (IH m1 m' Hd Hm1 Hfl1 ltac:(congruence) (Hs1 Hs) He)
      as (? & ? & ? & ? & Hfold).
    repeat split; try done; [by constructor|].
    rewrite Hfold, Hu1. by destruct e.
Qed.

Lemma elem_of_remove_first x y l : x ∈ remove_first y l → x ∈ l.
Proof.
  induction l as [|z l IH]; cbn [remove_first]; [done|].
  destruct (decide (y = z)); rewrite ?elem_of_cons; [auto|].
  intros [->|H]; auto.
Qed.

Lemma delivered_snoc evs e :
  Notions.delivered (evs ++ [e])
  = (Notions.delivered evs
     ++ match e with
        | SessionResolved _ (Some s) => [s]
        | _ => []
        end)%list.
Proof.
  unfold Notions.delivered. rewrite flat_map_app. cbn [flat_map].
  by rewrite List.app_nil_r.
Qed.

(** Where the fetches in flight and the mirrored identity come from. *)
Lemma provenance c evs : ∀ m,
  demo c = false →
  exec c initial evs = Some m →
  (∀ o u, (o, u) ∈ in_flight m →
          ∃ s, s ∈ Notions.delivered evs ∧ session_user s = u)
  ∧ (∀ i, user m = Some i →
          (∃ s, s ∈ Notions.delivered evs ∧ auth_user i = session_user s)
          ∧ ∀ p, profile i = Some p →
                 ∃ o, ProfileFetched o (auth_user i) (Row p) ∈ evs).
Proof.
  induction evs as [|e evs IH] using rev_ind; intros m Hd H.
  - cbn in H. simplify_eq. split; [intros o u []%elem_of_nil | done].
  - rewrite exec_snoc in H.
    destruct (exec c initial evs) as [m0|] eqn:H0; [|done].
    destruct (IH m0 Hd eq_refl) as [Hfl Hu]. clear IH.
    rewrite delivered_snoc.
    assert (Hfl' : ∀ o u, (o, u) ∈ in_flight m0 →
      ∃ s, s ∈ (Notions.delivered evs
                ++ match e with
                   | SessionResolved _ (Some s) => [s]
                   | _ => []
                   end)%list ∧ session_user s = u).
    { intros o u Hin. destruct (Hfl o u Hin) as (s & Hs & Heq).
      exists s. rewrite elem_of_app. auto. }
    assert (Hu' : ∀ i, user m0 = Some i →
      (∃ s, s ∈ (Notions.delivered evs
                 ++ match e with
                    | SessionResolved _ (Some s) => [s]
                    | _ => []
                    end)%list ∧ auth_user i = session_user s)
      ∧ ∀ p, profile i = Some p →
             ∃ o, ProfileFetched o (auth_user i) (Row p)
                  ∈ (evs ++ [e])%list).
    { intros i Hi. destruct (Hu i Hi) as [(s & Hs & Heq) Hp]. split.
      - exists s. rewrite elem_of_app. auto.
      - intros p Hpi. destruct (Hp p Hpi) as [o Ho]. exists o.
        rewrite elem_of_app. auto. }
    clear Hfl Hu.
    destruct e as [now|o s|o u r|email pw|email pw|]; cbn [step] in H;
      unfold signIn, signUp, signOut in H; rewrite ?Hd in H.
    + destruct (mounted m0); by simplify_eq.
    + assert (∃ m1, m = on_session o s m1 ∧ user m1 = user m0
                    ∧ in_flight m1 = in_flight m0)
        as (m1 & -> & Hu1 & Hf1).
      { destruct o; cbn [negb andb] in H;
          repeat match type of H with
                 | context [if ?b then _ else _] => destruct b
                 end; simplify_eq; eauto. }
      destruct (on_session_fields o s m1) as (_ & _ & Hf).
      destruct s as [s'|].
      * destruct Hf as (-> & _ & _ & ->). rewrite Hu1, Hf1.
        split; [|done]. intros o' u'. rewrite elem_of_app, list_elem_of_singleton.
        intros [Hin | [= -> ->]]; [eauto|].
        exists s'. rewrite elem_of_app, list_elem_of_singleton. auto.
      * destruct Hf as (-> & _ & _ & ->). rewrite Hf1. by split.
    + destruct (bool_decide_reflect ((o, u) ∈ in_flight m0)) as [Hin|];
        simplify_eq. set_fields. split.
      * intros o' u' Hin'%elem_of_remove_first. rewrite List.app_nil_r in *.
        eauto.
      * intros i [= <-]. cbn [auth_user profile]. split.
        { destruct (Hfl' o u Hin) as (s & Hs & <-). by exists s. }
        intros p Hp. exists o. rewrite elem_of_app, list_elem_of_singleton.
        right. unfold fetchUserProfile in Hp.
        destruct (supabase c); [|discriminate Hp].
        destruct r; cbn in Hp; by simplify_eq.
    + by simplify_eq.
    + by simplify_eq.
    + by simplify_eq.
Qed.

(** What a run keeps when the resolutions are handled one at a time:
    either nothing is in flight and identity and session agree, or the
    one fetch in flight is for the user of the session. *)
Lemma serial_exec c evs : ∀ m m',
  demo c = false →
  (in_flight m = [] ∧ Notions.agrees m
   ∨ ∃ o s, in_flight m = [(o, session_user s)] ∧ session m = Some s) →
  exec c m evs = Some m' →
  Notions.serial c m evs = true →
  in_flight m' = [] ∧ Notions.agrees m'
  ∨ ∃ o s, in_flight m' = [(o, session_user s)] ∧ session m' = Some s.
Proof.
  induction evs as [|e evs IH]; intros m m' Hd HK H Hser;
    cbn [exec Notions.serial] in *.
  - by simplify_eq.
  - destruct (step c m e) as [m1|] eqn:Hstep; [|done].
    apply andb_prop in Hser as [Hguard Hser].
    apply (IH m1 m' Hd); [|done..]. clear IH H Hser.
    unfold Notions.agrees in *.
    destruct e as [now|o s|o u r|email pw|email pw|]; cbn [step] in Hstep;
      unfold signIn, signUp, signOut in Hstep; rewrite ?Hd in Hstep.
    + destruct (mounted m); by simplify_eq.
    + apply bool_decide_eq_true in Hguard.
      destruct HK as [[_ Hag] | (? & ? & Hfl & _)]; [|congruence].
      assert (∃ m0, m1 = on_session o s m0 ∧ in_flight m0 = [])
        as (m0 & -> & Hf0).
      { destruct o; cbn [negb andb] in Hstep;
          repeat match type of Hstep with
                 | context [if ?b then _ else _] => destruct b
                 end; simplify_eq; eauto. }
      destruct (on_session_fields o s m0) as (Hs & _ & Hf).
      destruct s as [s'|].
      * right. exists o, s'. destruct Hf as (_ & _ & _ & ->).
        by rewrite Hf0, Hs.
      * left. destruct Hf as (-> & _ & _ & ->). by rewrite Hf0, Hs.
    + destruct (bool_decide_reflect ((o, u) ∈ in_flight m)) as [Hin|];
        simplify_eq. set_fields.
      destruct HK as [[Hfl _] | (o' & s & Hfl & Hs)].
      { rewrite Hfl in Hin. by apply elem_of_nil in Hin. }
      rewrite Hfl in *. apply list_elem_of_singleton in Hin as [= -> ->].
      left. cbn [remove_first]. rewrite decide_True by done.
      split; [done|]. rewrite Hs. eauto.
    + by simplify_eq.
    + by simplify_eq.
    + by simplify_eq.
Qed.

(** Without that discipline a late fetch overwrites the identity of a
    newer session. *)
Example overtaken_identity :
  ∃ m, exec Sample.live initial Notions.overtaking_run = Some m
       ∧ in_flight m = []
       ∧ session m = Some Notions.bob_session
       ∧ user m = Some {| auth_user := Sample.alice;
                          profile := Some Sample.alice_row |}
       ∧ Notions.serial Sample.live initial Notions.overtaking_run = false.
Proof. eexists. by repeat split. Qed.

Lemma split_first (sep : ascii) (s : string) :
  ∃ w, head (JS.split sep s) = Some w
       ∧ Stated.sep_free sep w
       ∧ (s = w ∨ ∃ rest, s = w +:+ String sep rest).
Proof.
  induction s as [|c s (w & Hw & Hfree & Hshape)].
  - exists "". split; [done|]. split; [|by left].
    intros [|x pre] suf; JSFacts.push_app; discriminate.
  - cbn [JS.split]. destruct (Ascii.eqb_spec c sep) as [->|Hc].
    + exists "". split; [done|]. split.
      * intros [|x pre] suf; JSFacts.push_app; discriminate.
      * right. by exists s.
    + destruct (JS.split sep s) as [|w' ws]; [done|].
      cbn in Hw. simplify_eq. exists (String c w). split; [done|]. split.
      * intros [|x pre] suf; JSFacts.push_app; intros [= -> H]; [done|].
        by apply (Hfree pre suf).
      * destruct Hshape as [->|[rest ->]]; [by left | right; by exists rest].
Qed.

End ProviderFacts.

(** X11.  Without a backend, once the effect has run [loading] is [false]
    and stays so, the session stays null, no session resolution and no
    profile fetch ever happens, and the mirrored identity is decided by the
    calls alone: the demo identity until a call is made, then the identity
    made up by the last sign-in or sign-up, or null after a sign-out. *)
Theorem X11_demo_mode_is_local c now evs m :
  AuthProvider.demo c = true →
  AuthProvider.exec c AuthProvider.initial (AuthProvider.Mount now :: evs)
  = Some m →
  AuthProvider.loading m = false
  ∧ AuthProvider.session m = None
  ∧ AuthProvider.in_flight m = []
  ∧ Forall (λ e, Notions.is_call e = true) evs
  ∧ AuthProvider.user m = Notions.demo_user now evs.
Proof.
  intros Hd H. cbn [AuthProvider.exec AuthProvider.step] in H.
  rewrite Hd in H. cbn [AuthProvider.mounted AuthProvider.initial] in H.
  by apply (ProviderFacts.demo_exec c evs _ m Hd) in H.
Qed.

Lemma X11_demo_mode_is_local_witness :
  ∃ m,
    AuthProvider.exec Sample.offline AuthProvider.initial
      [AuthProvider.Mount 5; AuthProvider.SignOut;
       AuthProvider.SignIn "bob@example.com" "secret"] = Some m
    ∧ AuthProvider.loading m = false
    ∧ AuthProvider.user m
      = Some (AuthProvider.local_identity "bob@example.com").
Proof.
  eexists. split; [reflexivity|].
  destruct (X11_demo_mode_is_local Sample.offline 5
              [AuthProvider.SignOut;
               AuthProvider.SignIn "bob@example.com" "secret"]
              _ eq_refl eq_refl) as (Hl & _ & _ & _ & Hu).
  split; [exact Hl | exact Hu].
Defined.

(** X12.  With a backend, [signIn], [signUp] and [signOut] leave the
    mirrored state alone: a run ends in the same state with or without
    them, the state moving only on what the auth service and the row store
    report. *)
Theorem X12_calls_leave_live_state c m evs :
  AuthProvider.demo c = false →
  AuthProvider.exec c m evs
  = AuthProvider.exec c m
      (List.filter (λ e, negb (Notions.is_call e)) evs).
Proof.
  intros Hd. revert m.
  induction evs as [|e evs IH]; intros m; [done|].
  cbn [List.filter]. destruct (Notions.is_call e) eqn:Hcall; cbn [negb].
  - cbn [AuthProvider.exec].
    destruct (AuthProvider.step c m e) as [m'|] eqn:Hstep.
    + destruct (ProviderFacts.live_step_session c m e m' Hd Hstep)
        as [_ Hsame]. rewrite (Hsame Hcall). apply IH.
    + destruct e; try discriminate Hcall; discriminate Hstep.
  - cbn [AuthProvider.exec].
    destruct (AuthProvider.step c m e); [apply IH | done].
Qed.

Lemma X12_calls_leave_live_state_witness :
  AuthProvider.exec Sample.live AuthProvider.initial
    [AuthProvider.Mount 0; AuthProvider.SignIn "alice@example.com" "pw";
     AuthProvider.SessionResolved AuthProvider.Initial None;
     AuthProvider.SignOut]
  = AuthProvider.exec Sample.live AuthProvider.initial
      [AuthProvider.Mount 0;
       AuthProvider.SessionResolved AuthProvider.Initial None].
Proof.
  exact (X12_calls_leave_live_state Sample.live AuthProvider.initial
           [AuthProvider.Mount 0;
            AuthProvider.SignIn "alice@example.com" "pw";
            AuthProvider.SessionResolved AuthProvider.Initial None;
            AuthProvider.SignOut] eq_refl).
Defined.

(** X13.  With a backend, the mirrored session is always the one of the
    last resolution delivered, initial or change, whatever profile fetches
    are still in flight; it is null before the first. *)
Theorem X13_session_is_last_delivered c evs m :
  AuthProvider.demo c = false →
  AuthProvider.exec c AuthProvider.initial evs = Some m →
  AuthProvider.session m = Notions.last_session evs.
Proof.
  intros Hd H. unfold Notions.last_session.
  change (@None AuthProvider.Session)
    with (AuthProvider.session AuthProvider.initial).
  revert H. generalize AuthProvider.initial.
  induction evs as [|e evs IH]; intros m0 H;
    cbn [AuthProvider.exec foldl] in *.
  - by simplify_eq.
  - destruct (AuthProvider.step c m0 e) as [m1|] eqn:Hstep; [|done].
    destruct (ProviderFacts.live_step_session c m0 e m1 Hd Hstep)
      as [Hs _].
    rewrite (IH m1 H), Hs. by destruct e.
Qed.

Lemma X13_session_is_last_delivered_witness :
  ∃ m,
    AuthProvider.exec Sample.live AuthProvider.initial
      Sample.failed_fetch_run = Some m
    ∧ AuthProvider.session m = Some Sample.alice_session.
Proof.
  eexists. split; [reflexivity|].
  exact (X13_session_is_last_delivered Sample.live Sample.failed_fetch_run
           _ eq_refl eq_refl).
Defined.

(** X14.  With a backend, the provider never makes up an identity: the
    user of the mirrored identity is the user of a session that the auth
    service delivered, and a profile it carries is a row that the row store
    returned for that user. *)
Theorem X14_identity_comes_from_backend c evs m i :
  AuthProvider.demo c = false →
  AuthProvider.exec c AuthProvider.initial evs = Some m →
  AuthProvider.user m = Some i →
  (∃ s, s ∈ Notions.delivered evs
        ∧ AuthProvider.auth_user i = AuthProvider.session_user s)
  ∧ ∀ p, AuthProvider.profile i = Some p →
         ∃ o, AuthProvider.ProfileFetched o (AuthProvider.auth_user i)
                (AuthProvider.Row p) ∈ evs.
Proof.
  intros Hd H Hi.
  by apply (proj2 (ProviderFacts.provenance c evs m Hd H)).
Qed.

Lemma X14_identity_comes_from_backend_witness :
  ∃ s, s ∈ Notions.delivered Sample.failed_fetch_run
       ∧ Sample.alice = AuthProvider.session_user s.
Proof.
  exact (proj1 (X14_identity_comes_from_backend Sample.live
                  Sample.failed_fetch_run _
                  {| AuthProvider.auth_user := Sample.alice;
                     AuthProvider.profile := None |}
                  eq_refl eq_refl eq_refl)).
Defined.

(** X15.  With a backend, when every session resolution arrives while no
    profile fetch is in flight, the mirrored identity agrees with the
    mirrored session whenever nothing is in flight: null for a null
    session, the user of the session otherwise. *)
Theorem X15_serial_runs_agree c evs m :
  AuthProvider.demo c = false →
  AuthProvider.exec c AuthProvider.initial evs = Some m →
  Notions.serial c AuthProvider.initial evs = true →
  AuthProvider.in_flight m = [] →
  Notions.agrees m.
Proof.
  intros Hd H Hser Hfl.
  destruct (ProviderFacts.serial_exec c evs AuthProvider.initial m Hd
              ltac:(by left) H Hser) as [[_ Hag] | (o & s & Hfl' & _)];
    [done | congruence].
Qed.

Lemma X15_serial_runs_agree_witness :
  ∃ m,
    AuthProvider.exec Sample.live AuthProvider.initial
      Sample.failed_fetch_run = Some m
    ∧ Notions.agrees m.
Proof.
  eexists. split; [reflexivity|].
  exact (X15_serial_runs_agree Sample.live Sample.failed_fetch_run _
           eq_refl eq_refl eq_refl eq_refl).
Defined.

(** X16.  In demo mode [signIn] and [signUp] do the same: they mirror an
    identity with the id ["demo-user"], the given address and no profile,
    whose display name is the address up to its first ["@"] (the whole
    address when it has none), and leave the session and [loading] as
    they are. *)
Theorem X16_demo_sign_in_identity c email password m :
  AuthProvider.demo c = true →
  AuthProvider.signUp c email password m
  = AuthProvider.signIn c email password m
  ∧ AuthProvider.session (AuthProvider.signIn c email password m)
    = AuthProvider.session m
  ∧ AuthProvider.loading (AuthProvider.signIn c email password m)
    = AuthProvider.loading m
  ∧ ∃ name,
      AuthProvider.user (AuthProvider.signIn c email password m)
      = Some {| AuthProvider.auth_user :=
                  {| user_id := "demo-user"; user_email := email;
                     user_metadata_display_name := Some name |};
                AuthProvider.profile := None |}
      ∧ Stated.sep_free "@" name
      ∧ (email = name ∨ ∃ rest, email = name +:+ "@" +:+ rest).
Proof.
  intros Hd. unfold AuthProvider.signIn, AuthProvider.signUp. rewrite Hd.
  split; [done|]. split; [done|]. split; [done|].
  destruct (ProviderFacts.split_first "@" email) as (name & Hn & Hfree & Hs).
  exists name. cbn [AuthProvider.user AuthProvider.setUser].
  unfold AuthProvider.local_identity. rewrite Hn. by repeat split.
Qed.

Lemma X16_demo_sign_in_identity_witness :
  ∃ name,
    AuthProvider.user
      (AuthProvider.signIn Sample.offline "carol@example.com" "pw"
         AuthProvider.initial)
    = Some {| AuthProvider.auth_user :=
                {| user_id := "demo-user";
                   user_email := "carol@example.com";
                   user_metadata_display_name := Some name |};
              AuthProvider.profile := None |}
    ∧ ("carol@example.com" = name
       ∨ ∃ rest, "carol@example.com" = name +:+ "@" +:+ rest).
Proof.
  destruct (X16_demo_sign_in_identity Sample.offline "carol@example.com"
              "pw" AuthProvider.initial eq_refl)
    as (_ & _ & _ & name & Hu & _ & Hs).
  by exists name.
Defined.
